(** * mpi-fsm: distributed finite state machines over MPI

    A shallow embedding of [src/mpi-fsm-2.c] (root broadcasts a fixed number
    of random symbols) and [src/mpi-fsm-4.c] (root broadcasts until it has
    counted [num_nodes-1] acknowledgments), and the properties of the
    coordination protocol proved about them.

    Modelling conventions
    - a C [int] is a [Z]; the two operations that could leave the 32-bit
      range ([++ACK_COUNT], [num_nodes-1]) go through [int_wrap], while
      [++done] only ever takes 0 to 1, after which the loop is left;
    - an array read [a[i]] is [index a i : option _]; [None] is an access
      outside the array (undefined in C);
    - the MPI calls are the only effects.  A process is a function of what
      the transport hands it (the buffers it receives, the result of each
      probe, the value of each [rand()] call) and returns its final local
      state together with the chronological list of MPI events it issued;
    - [printf] output is not modelled. *)

From Stdlib Require Import ZArith List Lia Bool.
Import ListNotations.
Open Scope Z_scope.

(** ** C integers *)

Definition INT_MAX : Z := 2147483647.
Definition INT_MIN : Z := -2147483648.

(** Two's complement reduction of a mathematical integer to a 32-bit int. *)
Definition int_wrap (z : Z) : Z := (z + 2147483648) mod 4294967296 - 2147483648.

(** [a[i]] for an array held as a list. *)
Definition index {T : Type} (a : list T) (i : Z) : option T :=
  if i <? 0 then None else nth_error a (Z.to_nat i).

(** ** Alphabet, states and transition matrices

    These declarations are textually the same in both source files, except
    for [ACK], which only mpi-fsm-4.c has. *)

Definition ROOT : Z := 0.
Definition MSG_SIZE : Z := 100.

Definition NUM_SYMBOLS : Z := 3.
Definition A : Z := 0.
Definition B : Z := 1.
Definition C : Z := 2.
Definition ACK : Z := 3.

Definition R0 : Z := 0.
Definition Q0 : Z := 0.
Definition Q1 : Z := 1.
Definition Q2 : Z := 2.
Definition Q3 : Z := 3.

Definition DELTA_PROC : list (list Z) :=
  [ [Q1; Q0; Q0];
    [Q1; Q2; Q1];
    [Q2; Q2; Q3];
    [Q3; Q3; Q3] ].

Definition next_state_proc (state symbol : Z) : option Z :=
  match index DELTA_PROC state with
  | Some row => index row symbol
  | None => None
  end.

Definition DELTA_ROOT : list (list Z) := [ [R0; R0; R0] ].

Definition next_state_root (state symbol : Z) : option Z :=
  match index DELTA_ROOT state with
  | Some row => index row symbol
  | None => None
  end.

(** [get_random_msg] is [rand() % NUM_SYMBOLS]; [r] is the value the call to
    [rand()] returned.  C's [%] truncates towards zero: [Z.rem]. *)
Definition get_random_msg (r : Z) : Z := Z.rem r NUM_SYMBOLS.

(** The MPI events a process issues, in the order it issues them. *)
Inductive event : Type :=
| Send (dest : Z) (buf : list Z)
| Recv (source : Z) (buf : list Z).

(** Ranks [1 .. num_nodes-1], the targets of the loop
    [for (j=1;j<num_nodes;j++)]. *)
Definition worker_ranks (num_nodes : Z) : list Z :=
  map Z.of_nat (seq 1 (Z.to_nat num_nodes - 1)).

(** One broadcast: the inner [for] loop of the root, a send to every rank
    from 1 up. *)
Definition broadcast (num_nodes : Z) (buf : list Z) : list event :=
  map (fun j => Send j buf) (worker_ranks num_nodes).

(** Number of sends addressed to rank [j] in a trace. *)
Fixpoint sends_to (j : Z) (tr : list event) : nat :=
  match tr with
  | [] => 0%nat
  | Send d _ :: tr' => if d =? j then S (sends_to j tr') else sends_to j tr'
  | Recv _ _ :: tr' => sends_to j tr'
  end.

(** All sends of a trace, and the sources of all its receives. *)
Fixpoint sends_of (tr : list event) : list (Z * list Z) :=
  match tr with
  | [] => []
  | Send d b :: tr' => (d, b) :: sends_of tr'
  | Recv _ _ :: tr' => sends_of tr'
  end.

Fixpoint recv_sources (tr : list event) : list Z :=
  match tr with
  | [] => []
  | Send _ _ :: tr' => recv_sources tr'
  | Recv s _ :: tr' => s :: recv_sources tr'
  end.

(** ** mpi-fsm-4.c: messages are arrays, workers acknowledge, root counts *)

Module Fsm4.

(** [for (i=0;i<MSG_SIZE;i++) msg[i] = v;] *)
Definition build_msg (v : Z) : list Z := repeat v (Z.to_nat MSG_SIZE).

(** [MPI_Recv(&msg,MSG_SIZE,MPI_INT,...)]: the elements that arrive overwrite
    the front of the buffer, the rest of the buffer keeps its content.  (A
    message longer than the buffer is an MPI truncation error; no process of
    this program sends one.  The model keeps the elements that fit.) *)
Definition recv_into (msg incoming : list Z) : list Z :=
  firstn (length msg) (incoming ++ skipn (length incoming) msg).

(** *** Non-root processes *)

(** The locals of the [else] branch of [main]; [w_done] is the inner
    [int done] that shadows the outer one. *)
Record worker : Type := mkWorker { my_state : Z; w_done : Z; w_msg : list Z }.

(** The [switch (msg[0])] statement.  It has no [default]: any other value
    falls through without effect. *)
Definition worker_switch (w : worker) : option (worker * list event) :=
  match index (w_msg w) 0 with
  | None => None
  | Some m0 =>
    if m0 =? A then
      if Q0 =? my_state w then
        match next_state_proc (my_state w) m0 with
        | Some q => Some (mkWorker q (w_done w) (w_msg w), [])
        | None => None
        end
      else Some (w, [])
    else if m0 =? B then
      if Q1 =? my_state w then
        match next_state_proc (my_state w) m0 with
        | Some q => Some (mkWorker q (w_done w) (w_msg w), [])
        | None => None
        end
      else Some (w, [])
    else if m0 =? C then
      if Q2 =? my_state w then
        match next_state_proc (my_state w) m0 with
        | Some q =>
            let ack := build_msg ACK in
            Some (mkWorker q (w_done w + 1) ack, [Send ROOT ack])
        | None => None
        end
      else Some (w, [])
    else Some (w, [])
  end.

(** One turn of [while (!done)]: the blocking receive, then the switch. *)
Definition worker_iter (w : worker) (incoming : list Z)
  : option (worker * list event) :=
  let w1 := mkWorker (my_state w) (w_done w) (recv_into (w_msg w) incoming) in
  match worker_switch w1 with
  | Some (w2, ev) => Some (w2, Recv ROOT incoming :: ev)
  | None => None
  end.

(** The loop, run on the messages the transport delivers, in order.  When
    the inbox is exhausted with [done] still 0 the process is blocked in
    [MPI_Recv]; the state it is blocked in is returned. *)
Fixpoint worker_loop (w : worker) (inbox : list (list Z))
  : option (worker * list event) :=
  match inbox with
  | [] => Some (w, [])
  | incoming :: rest =>
      if w_done w =? 0 then
        match worker_iter w incoming with
        | Some (w1, ev1) =>
            match worker_loop w1 rest with
            | Some (w2, ev2) => Some (w2, ev1 ++ ev2)
            | None => None
            end
        | None => None
        end
      else Some (w, [])
  end.

Definition worker_init : worker := mkWorker Q0 0 (build_msg (-1)).

Definition worker_main (inbox : list (list Z)) : option (worker * list event) :=
  worker_loop worker_init inbox.

(** *** The root process *)

(** The locals of the root branch that are read again after being written
    ([my_state = R0] is assigned once and never used). *)
Record root : Type := mkRoot { ACK_COUNT : Z; done : Z; msg : list Z }.

(** What the environment supplies to one turn of the root's loop: the value
    of [rand()], and what [MPI_Iprobe] finds: [None] when it leaves [flag] at
    0, otherwise the source and the content of the pending message. *)
Record round : Type := mkRound { rnd : Z; probe : option (Z * list Z) }.

(** One turn of the root's [while (!done)]. *)
Definition root_iter (num_nodes : Z) (r : root) (i : round)
  : root * list event :=
  let tmpmsg := get_random_msg (rnd i) in
  let msg1 := build_msg tmpmsg in
  let sends := broadcast num_nodes msg1 in
  match probe i with
  | None => (mkRoot (ACK_COUNT r) (done r) msg1, sends)
  | Some (source, incoming) =>
      let msg2 := recv_into msg1 incoming in
      let count := int_wrap (ACK_COUNT r + 1) in
      let done' := if int_wrap (num_nodes - 1) =? count
                   then done r + 1 else done r in
      (mkRoot count done' msg2, sends ++ [Recv source incoming])
  end.

Fixpoint root_loop (num_nodes : Z) (r : root) (rounds : list round)
  : root * list event :=
  match rounds with
  | [] => (r, [])
  | i :: rest =>
      if done r =? 0 then
        let (r1, ev1) := root_iter num_nodes r i in
        let (r2, ev2) := root_loop num_nodes r1 rest in
        (r2, ev1 ++ ev2)
      else (r, [])
  end.

Definition root_init : root := mkRoot 0 0 (build_msg (-1)).

Definition root_main (num_nodes : Z) (rounds : list round) : root * list event :=
  root_loop num_nodes root_init rounds.

End Fsm4.

(** ** mpi-fsm-2.c: messages are single ints, root stops after 50 rounds *)

Module Fsm2.

Record worker : Type := mkWorker { my_state : Z; w_done : Z; w_msg : Z }.

(** The [switch (msg)] statement. *)
Definition worker_switch (w : worker) : option worker :=
  let m := w_msg w in
  if m =? A then
    if Q0 =? my_state w then
      match next_state_proc (my_state w) m with
      | Some q => Some (mkWorker q (w_done w) m)
      | None => None
      end
    else Some w
  else if m =? B then
    if Q1 =? my_state w then
      match next_state_proc (my_state w) m with
      | Some q => Some (mkWorker q (w_done w) m)
      | None => None
      end
    else Some w
  else if m =? C then
    if Q2 =? my_state w then
      match next_state_proc (my_state w) m with
      | Some q => Some (mkWorker q (w_done w + 1) m)
      | None => None
      end
    else Some w
  else Some w.

Definition worker_iter (w : worker) (incoming : Z)
  : option (worker * list event) :=
  match worker_switch (mkWorker (my_state w) (w_done w) incoming) with
  | Some w2 => Some (w2, [Recv ROOT [incoming]])
  | None => None
  end.

Fixpoint worker_loop (w : worker) (inbox : list Z)
  : option (worker * list event) :=
  match inbox with
  | [] => Some (w, [])
  | incoming :: rest =>
      if w_done w =? 0 then
        match worker_iter w incoming with
        | Some (w1, ev1) =>
            match worker_loop w1 rest with
            | Some (w2, ev2) => Some (w2, ev1 ++ ev2)
            | None => None
            end
        | None => None
        end
      else Some (w, [])
  end.

Definition worker_init : worker := mkWorker Q0 0 (-1).

(** The root's [for (i=0;i<50;i++)] loop from counter value [i] on.  [rand k]
    is the value of the [k]-th call of [rand()]; the loop calls it once per
    turn, so turn [i] sees [rand i].  [fuel] bounds the number of turns the
    model may take; [None] means it was not enough. *)
Fixpoint root_for (fuel : nat) (num_nodes : Z) (rand : nat -> Z) (i : Z)
  : option (list event) :=
  if i <? 50 then
    match fuel with
    | O => None
    | S fuel' =>
        let msg := get_random_msg (rand (Z.to_nat i)) in
        match root_for fuel' num_nodes rand (i + 1) with
        | Some tr => Some (broadcast num_nodes [msg] ++ tr)
        | None => None
        end
    end
  else Some [].

Definition root_main (fuel : nat) (num_nodes : Z) (rand : nat -> Z)
  : option (list event) :=
  root_for fuel num_nodes rand 0.

(** The events of turn [i] of that loop, for stating what a run consists of. *)
Definition round_events (num_nodes : Z) (rand : nat -> Z) (i : nat)
  : list event :=
  broadcast num_nodes [get_random_msg (rand i)].

End Fsm2.

(** ** Specification vocabulary *)

(** [S] has an [A], later a [B], later still a [C]. *)
Definition contains_ABC (S : list Z) : Prop :=
  exists l1 l2 l3 l4, S = l1 ++ A :: l2 ++ B :: l3 ++ C :: l4.

(** Greedy test that [p] is a subsequence of [S]. *)
Fixpoint is_subseq (p S : list Z) : bool :=
  match p, S with
  | [], _ => true
  | _ :: _, [] => false
  | x :: p', y :: S' => if x =? y then is_subseq p' S' else is_subseq p S'
  end.

(** The symbols a worker in state [q] still has to see, in order. *)
Definition remaining (q : Z) : list Z := skipn (Z.to_nat q) [A; B; C].

Definition is_symbol (s : Z) : Prop := s = A \/ s = B \/ s = C.
Definition is_state (q : Z) : Prop := q = Q0 \/ q = Q1 \/ q = Q2 \/ q = Q3.

(** The three pairs on which the matrix moves to a new state. *)
Definition advancing (q s : Z) : Prop :=
  (q = Q0 /\ s = A) \/ (q = Q1 /\ s = B) \/ (q = Q2 /\ s = C).

(** Closed form of what the worker's switch does to [my_state] on seeing
    symbol [s] in state [q]; [worker_switch_spec] below shows that the switch
    of the source computes it.  Used to follow a run through a whole inbox. *)
Definition guarded_next (q s : Z) : Z :=
  if (q =? Q0) && (s =? A) then Q1
  else if (q =? Q1) && (s =? B) then Q2
  else if (q =? Q2) && (s =? C) then Q3
  else q.

(** The guarded update of the source, observed on (state, symbol): run the
    switch of each variant on a worker in state [q] whose buffer holds [s]
    and read [my_state] off the result. *)
Definition guarded_update4 (q s : Z) : option Z :=
  match Fsm4.worker_switch (Fsm4.mkWorker q 0 (Fsm4.build_msg s)) with
  | Some (w, _) => Some (Fsm4.my_state w)
  | None => None
  end.

Definition guarded_update2 (q s : Z) : option Z :=
  match Fsm2.worker_switch (Fsm2.mkWorker q 0 s) with
  | Some w => Some (Fsm2.my_state w)
  | None => None
  end.

(** The receives a worker of mpi-fsm-4 performs for the symbols [S]. *)
Definition recvs_of (S : list Z) : list event :=
  map (fun s => Recv ROOT (Fsm4.build_msg s)) S.

(** What the transport may hand to the root of mpi-fsm-4: only ranks
    [1 .. num_nodes-1] ever send to it. *)
Definition probe_ok (num_nodes : Z) (i : Fsm4.round) : Prop :=
  match Fsm4.probe i with
  | None => True
  | Some (source, _) => 1 <= source < num_nodes
  end.

(** The loop invariant of the root of mpi-fsm-4: either the loop is still
    running with fewer than [num_nodes-1] messages counted (or there is no
    worker at all and nothing was counted), or it has just counted the
    [num_nodes-1]-th message and raised [done]. *)
Definition root_inv (num_nodes : Z) (r : Fsm4.root) : Prop :=
  0 <= Fsm4.ACK_COUNT r /\
  ((Fsm4.done r = 0 /\
    (Fsm4.ACK_COUNT r < num_nodes - 1 \/
     num_nodes = 1 /\ Fsm4.ACK_COUNT r = 0)) \/
   (Fsm4.done r = 1 /\ Fsm4.ACK_COUNT r = num_nodes - 1 /\ 2 <= num_nodes)).

(** The termination detector as the specification words it, read on a run of
    the root: after the rounds [pre], a message from a source the root has
    already received from leaves the count as it is ... *)
Definition duplicate_ack_is_noop
    (num_nodes : Z) (pre : list Fsm4.round) (i : Fsm4.round) : Prop :=
  forall source buf,
    Fsm4.probe i = Some (source, buf) ->
    In source (recv_sources (snd (Fsm4.root_main num_nodes pre))) ->
    Fsm4.ACK_COUNT
      (fst (Fsm4.root_iter num_nodes (fst (Fsm4.root_main num_nodes pre)) i)) =
    Fsm4.ACK_COUNT (fst (Fsm4.root_main num_nodes pre)).

(** ... and completion is reported exactly when every worker rank is among
    the sources received from. *)
Definition complete_iff_all_acked
    (num_nodes : Z) (rounds : list Fsm4.round) : Prop :=
  Fsm4.done (fst (Fsm4.root_main num_nodes rounds)) <> 0 <->
  (forall j, 1 <= j < num_nodes ->
     In j (recv_sources (snd (Fsm4.root_main num_nodes rounds)))).

(** ** Vocabulary for the properties of the whole programs *)

(** The buffers addressed to rank [j] in a trace, in the order they were
    sent: with a transport that is reliable and ordered per destination,
    what rank [j] receives. *)
Fixpoint inbox_of (j : Z) (tr : list event) : list (list Z) :=
  match tr with
  | [] => []
  | Send d b :: tr' => if d =? j then b :: inbox_of j tr' else inbox_of j tr'
  | Recv _ _ :: tr' => inbox_of j tr'
  end.

(** The number of rounds in which [MPI_Iprobe] finds a message. *)
Fixpoint pending_count (rounds : list Fsm4.round) : nat :=
  match rounds with
  | [] => O
  | i :: rest =>
      match Fsm4.probe i with
      | Some _ => Datatypes.S (pending_count rest)
      | None => pending_count rest
      end
  end.

(** The number of symbols of [S] a worker in state [q] takes in before it
    leaves its loop (all of them when it does not leave). *)
Fixpoint consumed (q : Z) (S : list Z) : nat :=
  match S with
  | [] => O
  | s :: S' =>
      if (q =? Q2) && (s =? C) then 1%nat
      else Datatypes.S (consumed (guarded_next q s) S')
  end.

(** The words of the regular expression that the comment above [DELTA_PROC]
    gives, (B|C)*A(A|C)*B(A|B)*C. *)
Definition matches_regex (S : list Z) : Prop :=
  exists l1 l2 l3,
    S = l1 ++ A :: l2 ++ B :: l3 ++ [C] /\
    Forall (fun s => s = B \/ s = C) l1 /\
    Forall (fun s => s = A \/ s = C) l2 /\
    Forall (fun s => s = A \/ s = B) l3.

(** A pending message fits the root's receive of [MSG_SIZE] ints (a longer
    one is an MPI truncation error, after which the program does not go
    on). *)
Definition probe_fits (i : Fsm4.round) : Prop :=
  match Fsm4.probe i with
  | None => True
  | Some (_, incoming) => (length incoming <= Z.to_nat MSG_SIZE)%nat
  end.

(** Whether an int is one of the symbols A, B, C. *)
Definition is_symbolb (s : Z) : bool := (s =? A) || (s =? B) || (s =? C).

(** The receives a worker of mpi-fsm-2 performs for the symbols [S]. *)
Definition recvs_of2 (S : list Z) : list event :=
  map (fun s => Recv ROOT [s]) S.

(** * Properties *)

(** ** The transition matrix and the symbol source *)

Lemma is_state_cases (q : Z) :
  is_state q -> q = 0 \/ q = 1 \/ q = 2 \/ q = 3.
Proof. unfold is_state, Q0, Q1, Q2, Q3; tauto. Qed.

Lemma is_symbol_cases (s : Z) : is_symbol s -> s = 0 \/ s = 1 \/ s = 2.
Proof. unfold is_symbol, A, B, C; tauto. Qed.

Ltac split_state H :=
  apply is_state_cases in H; destruct H as [H | [H | [H | H]]]; subst.
Ltac split_symbol H :=
  apply is_symbol_cases in H; destruct H as [H | [H | H]]; subst.

Lemma next_state_proc_total (q s : Z) :
  is_state q -> is_symbol s ->
  exists q', next_state_proc q s = Some q' /\ is_state q'.
Proof.
  intros Hq Hs. split_state Hq; split_symbol Hs;
    eexists; (split; [reflexivity | unfold is_state; cbv; tauto]).
Qed.

Lemma next_state_proc_guarded (q s : Z) :
  is_state q -> is_symbol s -> next_state_proc q s = Some (guarded_next q s).
Proof. intros Hq Hs. split_state Hq; split_symbol Hs; reflexivity. Qed.

Lemma guarded_next_advancing (q s : Z) :
  advancing q s -> guarded_next q s = q + 1.
Proof.
  unfold advancing. intros [[-> ->] | [[-> ->] | [-> ->]]]; reflexivity.
Qed.

Lemma guarded_next_stay (q s : Z) : ~ advancing q s -> guarded_next q s = q.
Proof.
  unfold advancing, guarded_next. intros H.
  destruct (q =? Q0) eqn:E0, (s =? A) eqn:EA; cbn [andb];
  destruct (q =? Q1) eqn:E1, (s =? B) eqn:EB; cbn [andb];
  destruct (q =? Q2) eqn:E2, (s =? C) eqn:EC; cbn [andb];
  rewrite ?Z.eqb_eq in *; try reflexivity; exfalso; apply H; tauto.
Qed.

Lemma guarded_next_mono (q s : Z) : q <= guarded_next q s <= q + 1.
Proof.
  unfold guarded_next.
  destruct ((q =? Q0) && (s =? A)) eqn:E0.
  { apply andb_prop in E0 as [E _]. apply Z.eqb_eq in E. subst. cbv. intuition discriminate. }
  destruct ((q =? Q1) && (s =? B)) eqn:E1.
  { apply andb_prop in E1 as [E _]. apply Z.eqb_eq in E. subst. cbv. intuition discriminate. }
  destruct ((q =? Q2) && (s =? C)) eqn:E2.
  { apply andb_prop in E2 as [E _]. apply Z.eqb_eq in E. subst. cbv. intuition discriminate. }
  lia.
Qed.

Lemma guarded_next_Q3 (s : Z) : guarded_next Q3 s = Q3.
Proof. reflexivity. Qed.

Lemma guarded_next_is_state (q s : Z) : is_state q -> is_state (guarded_next q s).
Proof.
  intros Hq. unfold guarded_next.
  destruct ((q =? Q0) && (s =? A)); [unfold is_state; tauto|].
  destruct ((q =? Q1) && (s =? B)); [unfold is_state; tauto|].
  destruct ((q =? Q2) && (s =? C)); [unfold is_state; tauto|]. exact Hq.
Qed.

(** Claim C9: whenever [rand()] returns a non-negative value, as its contract
    says, [get_random_msg] returns 0, 1 or 2, that is A, B or C, and never
    the reserved value ACK = 3. *)
Theorem get_random_msg_in_alphabet (r : Z) :
  0 <= r ->
  is_symbol (get_random_msg r) /\
  0 <= get_random_msg r <= 2 /\
  get_random_msg r <> ACK.
Proof.
  intros Hr. unfold get_random_msg, NUM_SYMBOLS.
  rewrite Z.rem_mod_nonneg by lia.
  pose proof (Z.mod_pos_bound r 3 ltac:(lia)) as Hb.
  unfold is_symbol, A, B, C, ACK. lia.
Qed.

Lemma get_random_msg_in_alphabet_witness :
  0 <= 32767 /\
  is_symbol (get_random_msg 32767) /\
  0 <= get_random_msg 32767 <= 2 /\
  get_random_msg 32767 <> ACK.
Proof.
  split; [lia | apply (get_random_msg_in_alphabet 32767); lia].
Defined.

(** ** The worker of mpi-fsm-4.c *)

Section Worker4.
Import Fsm4.

Lemma build_msg_length (v : Z) : length (build_msg v) = Z.to_nat MSG_SIZE.
Proof. unfold build_msg. apply repeat_length. Qed.

Lemma build_msg_head (v : Z) : index (build_msg v) 0 = Some v.
Proof. reflexivity. Qed.

Lemma recv_into_full (buf incoming : list Z) :
  length buf = length incoming -> recv_into buf incoming = incoming.
Proof.
  intros H. unfold recv_into. rewrite <- H, skipn_all, app_nil_r, H.
  apply firstn_all.
Qed.

Lemma recv_into_length (buf incoming : list Z) :
  length (recv_into buf incoming) = length buf.
Proof.
  unfold recv_into. rewrite length_firstn, length_app, length_skipn. lia.
Qed.

(** The switch of the source, in closed form: it depends on [my_state] and
    [msg[0]] only, never fails, and sends exactly on the pair (Q2, C). *)
Lemma worker_switch_spec (w : worker) (s : Z) :
  index (w_msg w) 0 = Some s ->
  worker_switch w =
    Some (if (my_state w =? Q2) && (s =? C)
          then (mkWorker Q3 (w_done w + 1) (build_msg ACK),
                [Send ROOT (build_msg ACK)])
          else (mkWorker (guarded_next (my_state w) s) (w_done w) (w_msg w),
                [])).
Proof.
  intros Hs. destruct w as [q d m]. unfold worker_switch. cbn [w_msg my_state w_done] in *.
  rewrite Hs. unfold guarded_next.
  destruct (s =? A) eqn:EA.
  { apply Z.eqb_eq in EA. subst s. rewrite (Z.eqb_sym Q0 q).
    destruct (q =? Q0) eqn:E0.
    - apply Z.eqb_eq in E0. subst q. reflexivity.
    - rewrite !andb_false_r. reflexivity. }
  destruct (s =? B) eqn:EB.
  { apply Z.eqb_eq in EB. subst s. rewrite (Z.eqb_sym Q1 q).
    destruct (q =? Q1) eqn:E1.
    - apply Z.eqb_eq in E1. subst q. reflexivity.
    - rewrite !andb_false_r. reflexivity. }
  destruct (s =? C) eqn:EC.
  { apply Z.eqb_eq in EC. subst s. rewrite (Z.eqb_sym Q2 q).
    destruct (q =? Q2) eqn:E2.
    - apply Z.eqb_eq in E2. subst q. reflexivity.
    - rewrite !andb_false_r. reflexivity. }
  rewrite !andb_false_r. reflexivity.
Qed.

(** One turn of the loop on a message the root built. *)
Lemma worker_iter_spec (w : worker) (s : Z) :
  length (w_msg w) = Z.to_nat MSG_SIZE ->
  worker_iter w (build_msg s) =
    Some (if (my_state w =? Q2) && (s =? C)
          then (mkWorker Q3 (w_done w + 1) (build_msg ACK),
                [Recv ROOT (build_msg s); Send ROOT (build_msg ACK)])
          else (mkWorker (guarded_next (my_state w) s) (w_done w) (build_msg s),
                [Recv ROOT (build_msg s)])).
Proof.
  intros Hl. unfold worker_iter.
  rewrite recv_into_full by (rewrite build_msg_length; exact Hl).
  rewrite (worker_switch_spec _ s) by apply build_msg_head.
  cbn [my_state w_done w_msg].
  destruct ((my_state w =? Q2) && (s =? C)); reflexivity.
Qed.

Lemma guarded_next_accept (q s : Z) :
  (q =? Q2) && (s =? C) = true -> guarded_next q s = Q3.
Proof.
  intros H. apply andb_prop in H as [Hq Hs].
  apply Z.eqb_eq in Hq, Hs. subst. reflexivity.
Qed.

Lemma guarded_next_not_accept (q s : Z) :
  (q =? Q2) && (s =? C) = false -> q <> Q3 -> guarded_next q s <> Q3.
Proof.
  intros H Hq. unfold guarded_next.
  destruct ((q =? Q0) && (s =? A)); [discriminate|].
  destruct ((q =? Q1) && (s =? B)); [discriminate|].
  rewrite H. exact Hq.
Qed.

Lemma fold_guarded_next_Q3 (S : list Z) : fold_left guarded_next S Q3 = Q3.
Proof. induction S as [|s S IH]; [reflexivity | exact IH]. Qed.

(** A worker that has left its loop issues nothing more and does not change,
    whatever is delivered. *)
Lemma worker_loop_done (w : worker) (inbox : list (list Z)) :
  w_done w <> 0 -> worker_loop w inbox = Some (w, []).
Proof.
  intros H. destruct inbox as [|m rest]; [reflexivity|].
  cbn [worker_loop]. apply Z.eqb_neq in H. rewrite H. reflexivity.
Qed.

(** The whole loop on the symbols [S] broadcast by the root, from any state
    the loop can be in: it never reads outside an array, the final state is
    the fold of the guarded update, [done] is raised exactly when Q3 is
    entered, and the trace is a run of receives closed, when Q3 was entered,
    by the one acknowledgment. *)
Lemma worker_loop_spec (S : list Z) : forall (w : worker),
  length (w_msg w) = Z.to_nat MSG_SIZE ->
  w_done w = 0 -> my_state w <> Q3 ->
  exists w' k,
    worker_loop w (map build_msg S) =
      Some (w', recvs_of (firstn k S) ++
                (if w_done w' =? 0 then [] else [Send ROOT (build_msg ACK)])) /\
    my_state w' = fold_left guarded_next S (my_state w) /\
    length (w_msg w') = Z.to_nat MSG_SIZE /\
    (w_done w' = 0 /\ my_state w' <> Q3 /\ k = length S \/
     w_done w' = 1 /\ my_state w' = Q3 /\ (0 < k <= length S)%nat /\
       nth_error S (k - 1) = Some C /\
       fold_left guarded_next (firstn (k - 1) S) (my_state w) = Q2).
Proof.
  induction S as [|s S IH]; intros w Hl Hd Hq.
  - exists w, 0%nat. cbn. rewrite Hd. cbn. repeat split; auto.
  - cbn [map worker_loop]. rewrite Hd. cbn [Z.eqb].
    rewrite worker_iter_spec by exact Hl.
    destruct ((my_state w =? Q2) && (s =? C)) eqn:Eacc.
    + rewrite worker_loop_done by (cbn; lia).
      rewrite Hd. cbn [Z.add].
      exists (mkWorker Q3 1 (build_msg ACK)), 1%nat.
      cbn [w_done my_state w_msg fold_left firstn].
      split; [reflexivity|].
      rewrite (guarded_next_accept _ _ Eacc), fold_guarded_next_Q3.
      split; [reflexivity|]. split; [apply build_msg_length|].
      right. apply andb_prop in Eacc as [E2 EC].
      apply Z.eqb_eq in E2, EC. subst s.
      repeat split; cbn; auto; lia.
    + destruct (IH (mkWorker (guarded_next (my_state w) s) (w_done w) (build_msg s)))
        as (w' & k & Hrun & Hst & Hlen & Hcases).
      * apply build_msg_length.
      * exact Hd.
      * cbn. apply guarded_next_not_accept; assumption.
      * cbn [my_state w_done w_msg] in *. rewrite Hrun.
        exists w', (Datatypes.S k). split; [reflexivity|].
        split; [exact Hst|]. split; [exact Hlen|].
        destruct Hcases as [(H0 & H3 & Hk) | (H1 & H3 & Hk & HC & HQ2)].
        -- left. repeat split; auto. cbn. lia.
        -- right. repeat split; auto; try (cbn; lia).
           ++ destruct k as [|k]; [lia|]. cbn. cbn in HC.
              rewrite Nat.sub_0_r in HC. exact HC.
           ++ destruct k as [|k]; [lia|]. cbn. cbn in HQ2.
              rewrite Nat.sub_0_r in HQ2. exact HQ2.
Qed.

End Worker4.

(** ** Subsequences *)

Section Subsequences.

Lemma is_subseq_tail (S : list Z) : forall (x : Z) (p : list Z),
  is_subseq (x :: p) S = true -> is_subseq p S = true.
Proof.
  induction S as [|y S IH]; intros x p H; [discriminate|].
  cbn [is_subseq] in H.
  destruct p as [|z p]; [reflexivity|]. cbn [is_subseq].
  destruct (x =? y).
  - destruct (z =? y); [apply (IH z) |]; exact H.
  - apply IH in H. destruct (z =? y); [apply (IH z) |]; exact H.
Qed.

Lemma is_subseq_skip (p S : list Z) (y : Z) :
  is_subseq p S = true -> is_subseq p (y :: S) = true.
Proof.
  intros H. destruct p as [|x p]; [reflexivity|]. cbn [is_subseq].
  destruct (x =? y); [apply (is_subseq_tail S x)|]; exact H.
Qed.

Lemma is_subseq_app (p S l : list Z) :
  is_subseq p S = true -> is_subseq p (l ++ S) = true.
Proof.
  intros H. induction l as [|y l IH]; [exact H|].
  cbn [app]. apply is_subseq_skip, IH.
Qed.

Lemma is_subseq_take (p S l : list Z) (x : Z) :
  is_subseq p S = true -> is_subseq (x :: p) (l ++ x :: S) = true.
Proof.
  intros H. apply is_subseq_app. cbn [is_subseq]. rewrite Z.eqb_refl. exact H.
Qed.

Lemma is_subseq_cons_inv (S : list Z) : forall (x : Z) (p : list Z),
  is_subseq (x :: p) S = true ->
  exists l S', S = l ++ x :: S' /\ is_subseq p S' = true.
Proof.
  induction S as [|y S IH]; intros x p H; [discriminate|].
  cbn [is_subseq] in H. destruct (x =? y) eqn:E.
  - apply Z.eqb_eq in E. subst y. exists [], S. split; [reflexivity | exact H].
  - destruct (IH x p H) as (l & S' & -> & H').
    exists (y :: l), S'. split; [reflexivity | exact H'].
Qed.

Lemma guarded_next_Q0 (s : Z) : guarded_next Q0 s = if A =? s then Q1 else Q0.
Proof.
  unfold guarded_next. rewrite (Z.eqb_sym s A).
  destruct (A =? s); reflexivity.
Qed.

Lemma guarded_next_Q1 (s : Z) : guarded_next Q1 s = if B =? s then Q2 else Q1.
Proof.
  unfold guarded_next. rewrite (Z.eqb_sym s B).
  destruct (B =? s); reflexivity.
Qed.

Lemma guarded_next_Q2 (s : Z) : guarded_next Q2 s = if C =? s then Q3 else Q2.
Proof.
  unfold guarded_next. rewrite (Z.eqb_sym s C).
  destruct (C =? s); reflexivity.
Qed.

Lemma contains_ABC_iff (S : list Z) :
  contains_ABC S <-> is_subseq [A; B; C] S = true.
Proof.
  split.
  - intros (l1 & l2 & l3 & l4 & ->).
    apply is_subseq_take, is_subseq_take, is_subseq_take.
    destruct l4; reflexivity.
  - intros H.
    apply is_subseq_cons_inv in H as (l1 & S1 & -> & H).
    apply is_subseq_cons_inv in H as (l2 & S2 & -> & H).
    apply is_subseq_cons_inv in H as (l3 & S3 & -> & _).
    exists l1, l2, l3, S3. reflexivity.
Qed.

(** The automaton in state [q] ends in Q3 exactly when what it still has to
    see is a subsequence of what it is fed. *)
Lemma fold_guarded_next_subseq (S : list Z) : forall q : Z,
  is_state q ->
  (fold_left guarded_next S q = Q3 <-> is_subseq (remaining q) S = true).
Proof.
  induction S as [|s S IH]; intros q Hq.
  - split_state Hq; cbn; split; intros H; try reflexivity; discriminate.
  - cbn [fold_left].
    rewrite (IH (guarded_next q s)) by (apply guarded_next_is_state; exact Hq).
    split_state Hq.
    + change (remaining 0) with [A; B; C]. cbn [is_subseq].
      change (guarded_next 0 s) with (guarded_next Q0 s).
      rewrite (guarded_next_Q0 s). destruct (A =? s); reflexivity.
    + change (remaining 1) with [B; C]. cbn [is_subseq].
      change (guarded_next 1 s) with (guarded_next Q1 s).
      rewrite (guarded_next_Q1 s). destruct (B =? s); reflexivity.
    + change (remaining 2) with [C]. cbn [is_subseq].
      change (guarded_next 2 s) with (guarded_next Q2 s).
      rewrite (guarded_next_Q2 s). destruct (C =? s); reflexivity.
    + destruct S; reflexivity.
Qed.

End Subsequences.

(** ** Claims about the worker automaton *)

(** Claim C1: a worker started in Q0 and fed the symbols [S] (each delivered
    as a message built by the root) ends in Q3 if and only if [S] contains an
    A, a later B and a still later C; without such a subsequence it is left in
    Q0, Q1 or Q2.  The run never fails, and the statement holds for every
    list of ints, in particular for every list over the alphabet A, B, C. *)
Theorem worker_accepts_iff_contains_ABC (S : list Z) :
  exists w tr,
    Fsm4.worker_main (map Fsm4.build_msg S) = Some (w, tr) /\
    (Fsm4.my_state w = Q3 <-> contains_ABC S) /\
    (~ contains_ABC S ->
     Fsm4.my_state w = Q0 \/ Fsm4.my_state w = Q1 \/ Fsm4.my_state w = Q2).
Proof.
  destruct (worker_loop_spec S Fsm4.worker_init) as (w & k & Hrun & Hst & _ & _).
  - apply build_msg_length.
  - reflexivity.
  - discriminate.
  - exists w. eexists. split; [exact Hrun|].
    cbn [Fsm4.my_state Fsm4.worker_init] in Hst.
    assert (Hiff : Fsm4.my_state w = Q3 <-> contains_ABC S).
    { rewrite Hst, contains_ABC_iff.
      apply (fold_guarded_next_subseq S Q0). unfold is_state; tauto. }
    split; [exact Hiff|]. intros Hno.
    assert (Hs : is_state (Fsm4.my_state w)).
    { rewrite Hst. clear. generalize Q0 (or_introl eq_refl : is_state Q0).
      induction S as [|s S IH]; intros q Hq; [exact Hq|].
      apply IH, guarded_next_is_state, Hq. }
    destruct Hs as [H | [H | [H | H]]]; auto.
    exfalso. apply Hno, Hiff, H.
Qed.

Section WorkerRuns.
Import Fsm4.

Lemma fold_guarded_next_mono (S : list Z) : forall q : Z,
  q <= fold_left guarded_next S q.
Proof.
  induction S as [|s S IH]; intros q; cbn [fold_left]; [lia|].
  pose proof (guarded_next_mono q s). pose proof (IH (guarded_next q s)). lia.
Qed.

Lemma fold_guarded_next_is_state (S : list Z) : forall q : Z,
  is_state q -> is_state (fold_left guarded_next S q).
Proof.
  induction S as [|s S IH]; intros q Hq; [exact Hq|].
  apply IH, guarded_next_is_state, Hq.
Qed.

Lemma worker_loop_app (in1 in2 : list (list Z)) : forall w : worker,
  worker_loop w (in1 ++ in2) =
    match worker_loop w in1 with
    | Some (w1, t1) =>
        match worker_loop w1 in2 with
        | Some (w2, t2) => Some (w2, t1 ++ t2)
        | None => None
        end
    | None => None
    end.
Proof.
  induction in1 as [|m in1 IH]; intros w.
  - cbn. destruct (worker_loop w in2) as [[w2 t2]|]; reflexivity.
  - cbn [app worker_loop]. destruct (w_done w =? 0) eqn:Ed.
    + destruct (worker_iter w m) as [[w1 t1]|]; [|reflexivity].
      rewrite IH. destruct (worker_loop w1 in1) as [[w2 t2]|]; [|reflexivity].
      destruct (worker_loop w2 in2) as [[w3 t3]|]; [|reflexivity].
      rewrite app_assoc. reflexivity.
    + apply Z.eqb_neq in Ed. rewrite worker_loop_done by exact Ed. reflexivity.
Qed.

(** The state reached by [worker_main] on the symbols [S]. *)
Lemma worker_main_state (S : list Z) :
  exists w tr,
    worker_main (map build_msg S) = Some (w, tr) /\
    my_state w = fold_left guarded_next S Q0.
Proof.
  destruct (worker_loop_spec S worker_init) as (w & k & Hrun & Hst & _).
  - apply build_msg_length.
  - reflexivity.
  - discriminate.
  - exists w. eexists. split; [exact Hrun | exact Hst].
Qed.

End WorkerRuns.

(** Claim C7: on every state Q0..Q3 and symbol A, B, C the guarded update of
    the worker's switch, in both source files, yields the same next state as
    the plain lookup [next_state_proc]: outside the three advancing pairs the
    matrix holds self-loops, so the guard changes nothing. *)
Theorem guard_is_redundant (q s : Z) :
  is_state q -> is_symbol s ->
  guarded_update4 q s = next_state_proc q s /\
  guarded_update2 q s = next_state_proc q s /\
  (~ advancing q s -> next_state_proc q s = Some q).
Proof.
  intros Hq Hs. split_state Hq; split_symbol Hs;
    (split; [vm_compute; reflexivity |
     split; [vm_compute; reflexivity |
       intros Hn; try reflexivity; exfalso; apply Hn; unfold advancing;
       cbv; tauto]]).
Qed.

Lemma guard_is_redundant_witness :
  guarded_update4 Q1 C = next_state_proc Q1 C /\
  guarded_update2 Q1 C = next_state_proc Q1 C /\
  (~ advancing Q1 C -> next_state_proc Q1 C = Some Q1).
Proof.
  apply (guard_is_redundant Q1 C).
  - unfold is_state; tauto.
  - unfold is_symbol; tauto.
Defined.

(** Claim C4: on a pair (q, s) of a state and a symbol that is none of the
    advancing pairs (Q0, A), (Q1, B), (Q2, C) the guarded transition keeps
    the state q; delivering s any number of times in succession to a worker
    in state q leaves it in state q, with no acknowledgment sent. *)
Theorem non_advancing_symbol_keeps_state (q s : Z) :
  is_state q -> is_symbol s -> ~ advancing q s ->
  guarded_update4 q s = Some q /\
  forall (w : Fsm4.worker) (n : nat),
    Fsm4.my_state w = q ->
    length (Fsm4.w_msg w) = Z.to_nat MSG_SIZE ->
    exists w' tr,
      Fsm4.worker_loop w (repeat (Fsm4.build_msg s) n) = Some (w', tr) /\
      Fsm4.my_state w' = q /\
      Fsm4.w_done w' = Fsm4.w_done w /\
      sends_of tr = [].
Proof.
  intros Hq Hs Hn. split.
  - split_state Hq; split_symbol Hs; try (vm_compute; reflexivity);
      exfalso; apply Hn; unfold advancing; cbv; tauto.
  - intros w n. revert w. induction n as [|n IH]; intros w Hw Hl.
    + exists w, []. cbn. auto.
    + cbn [repeat Fsm4.worker_loop].
      destruct (Fsm4.w_done w =? 0) eqn:Ed; [|exists w, []; cbn; auto].
      rewrite worker_iter_spec by exact Hl.
      assert (Hacc : (Fsm4.my_state w =? Q2) && (s =? C) = false).
      { apply not_true_is_false. intros H. apply andb_prop in H as [H2 HC].
        apply Z.eqb_eq in H2, HC. apply Hn. unfold advancing. subst q. tauto. }
      rewrite Hacc.
      destruct (IH (Fsm4.mkWorker (guarded_next (Fsm4.my_state w) s)
                                  (Fsm4.w_done w) (Fsm4.build_msg s)))
        as (w' & tr & Hrun & Hst & Hd & Hsend).
      * cbn. rewrite Hw. apply guarded_next_stay, Hn.
      * apply build_msg_length.
      * rewrite Hrun. exists w'. eexists. split; [reflexivity|].
        cbn in Hd. cbn [app sends_of]. auto.
Qed.

Lemma non_advancing_symbol_keeps_state_witness :
  guarded_update4 Q1 A = Some Q1 /\
  forall (w : Fsm4.worker) (n : nat),
    Fsm4.my_state w = Q1 ->
    length (Fsm4.w_msg w) = Z.to_nat MSG_SIZE ->
    exists w' tr,
      Fsm4.worker_loop w (repeat (Fsm4.build_msg A) n) = Some (w', tr) /\
      Fsm4.my_state w' = Q1 /\
      Fsm4.w_done w' = Fsm4.w_done w /\
      sends_of tr = [].
Proof.
  apply (non_advancing_symbol_keeps_state Q1 A).
  - unfold is_state; tauto.
  - unfold is_symbol; tauto.
  - unfold advancing. cbv. intuition discriminate.
Defined.

(** Claim C3: the state only moves forward along Q0, Q1, Q2, Q3.  For a
    state q and a symbol s among A, B, C neither the matrix nor the guarded
    switch yields a state before q; from Q3 every symbol leads to Q3; and
    along every run of a worker the state after a longer prefix of the
    delivered symbols is never before the state after a shorter one, so that
    Q3, once reached, is kept. *)
Theorem state_only_advances (q s : Z) (pre post : list Z) :
  is_state q -> is_symbol s ->
  (exists q', next_state_proc q s = Some q' /\ q <= q' <= Q3) /\
  (exists q', guarded_update4 q s = Some q' /\ q <= q' <= Q3) /\
  next_state_proc Q3 s = Some Q3 /\
  guarded_update4 Q3 s = Some Q3 /\
  exists w1 tr1 w2 tr2,
    Fsm4.worker_main (map Fsm4.build_msg pre) = Some (w1, tr1) /\
    Fsm4.worker_main (map Fsm4.build_msg (pre ++ post)) = Some (w2, tr2) /\
    Q0 <= Fsm4.my_state w1 <= Fsm4.my_state w2 /\
    Fsm4.my_state w2 <= Q3 /\
    (Fsm4.my_state w1 = Q3 -> Fsm4.my_state w2 = Q3).
Proof.
  intros Hq Hs.
  split.
  { split_state Hq; split_symbol Hs; eexists;
      (split; [reflexivity | cbv; intuition discriminate]). }
  split.
  { split_state Hq; split_symbol Hs; eexists;
      (split; [vm_compute; reflexivity | cbv; intuition discriminate]). }
  split.
  { split_symbol Hs; reflexivity. }
  split.
  { split_symbol Hs; vm_compute; reflexivity. }
  destruct (worker_main_state pre) as (w1 & tr1 & H1 & S1).
  destruct (worker_main_state (pre ++ post)) as (w2 & tr2 & H2 & S2).
  exists w1, tr1, w2, tr2. split; [exact H1|]. split; [exact H2|].
  rewrite fold_left_app, <- S1 in S2.
  pose proof (fold_guarded_next_mono pre Q0) as M1. rewrite <- S1 in M1.
  pose proof (fold_guarded_next_mono post (Fsm4.my_state w1)) as M2.
  rewrite <- S2 in M2.
  assert (I2 : is_state (Fsm4.my_state w2)).
  { rewrite S2, S1. apply fold_guarded_next_is_state, fold_guarded_next_is_state.
    unfold is_state; tauto. }
  split; [lia|]. split.
  - apply is_state_cases in I2. unfold Q3. lia.
  - intros E. rewrite S2, E. apply fold_guarded_next_Q3.
Qed.

Lemma state_only_advances_witness :
  (exists q', next_state_proc Q2 C = Some q' /\ Q2 <= q' <= Q3) /\
  (exists q', guarded_update4 Q2 C = Some q' /\ Q2 <= q' <= Q3) /\
  next_state_proc Q3 C = Some Q3 /\
  guarded_update4 Q3 C = Some Q3 /\
  exists w1 tr1 w2 tr2,
    Fsm4.worker_main (map Fsm4.build_msg [A; B; C]) = Some (w1, tr1) /\
    Fsm4.worker_main (map Fsm4.build_msg ([A; B; C] ++ [A; A])) = Some (w2, tr2) /\
    Q0 <= Fsm4.my_state w1 <= Fsm4.my_state w2 /\
    Fsm4.my_state w2 <= Q3 /\
    (Fsm4.my_state w1 = Q3 -> Fsm4.my_state w2 = Q3).
Proof.
  apply (state_only_advances Q2 C [A; B; C] [A; A]).
  - unfold is_state; tauto.
  - unfold is_symbol; tauto.
Defined.

(** Claim C5: a worker in its loop (state Q0, Q1 or Q2) that receives a
    symbol sends something exactly when the pair is (Q2, C), the transition
    into Q3: it then sends one acknowledgment to the root, leaves the loop
    and issues nothing more whatever is delivered later.  On every other pair
    it only receives.  Over a whole run on the symbols [S] the trace is the
    receives of the first [k] symbols, closed by the single acknowledgment
    exactly when the run reached Q3, which it did on a C seen in Q2. *)
Theorem ack_sent_exactly_on_accepting_transition
    (w : Fsm4.worker) (s : Z) (S : list Z) :
  Fsm4.w_done w = 0 ->
  Fsm4.my_state w = Q0 \/ Fsm4.my_state w = Q1 \/ Fsm4.my_state w = Q2 ->
  length (Fsm4.w_msg w) = Z.to_nat MSG_SIZE ->
  is_symbol s ->
  (exists w' tr,
     Fsm4.worker_iter w (Fsm4.build_msg s) = Some (w', tr) /\
     (Fsm4.my_state w' = Q3 <-> Fsm4.my_state w = Q2 /\ s = C) /\
     (Fsm4.my_state w' = Q3 ->
        tr = [Recv ROOT (Fsm4.build_msg s); Send ROOT (Fsm4.build_msg ACK)] /\
        Fsm4.w_done w' = 1 /\
        forall inbox, Fsm4.worker_loop w' inbox = Some (w', [])) /\
     (Fsm4.my_state w' <> Q3 ->
        tr = [Recv ROOT (Fsm4.build_msg s)] /\ Fsm4.w_done w' = 0)) /\
  (exists w' k,
     Fsm4.worker_main (map Fsm4.build_msg S) =
       Some (w', recvs_of (firstn k S) ++
                 (if Fsm4.my_state w' =? Q3
                  then [Send ROOT (Fsm4.build_msg ACK)] else [])) /\
     (Fsm4.my_state w' <> Q3 -> Fsm4.w_done w' = 0 /\ k = length S) /\
     (Fsm4.my_state w' = Q3 ->
        Fsm4.w_done w' = 1 /\ (0 < k <= length S)%nat /\
        nth_error S (k - 1) = Some C /\
        fold_left guarded_next (firstn (k - 1) S) Q0 = Q2 /\
        forall more,
          Fsm4.worker_main (map Fsm4.build_msg (S ++ more)) =
          Fsm4.worker_main (map Fsm4.build_msg S))).
Proof.
  intros Hd Hq Hl Hs. split.
  - rewrite worker_iter_spec by exact Hl.
    destruct ((Fsm4.my_state w =? Q2) && (s =? C)) eqn:Eacc.
    + apply andb_prop in Eacc as [E2 EC]. apply Z.eqb_eq in E2, EC.
      eexists; eexists. split; [reflexivity|]. cbn [Fsm4.my_state Fsm4.w_done].
      split; [tauto|]. split.
      * intros _. rewrite Hd. split; [reflexivity|]. split; [reflexivity|].
        intros inbox. apply worker_loop_done. cbn. discriminate.
      * intros H. exfalso. apply H. reflexivity.
    + assert (Hne : guarded_next (Fsm4.my_state w) s <> Q3).
      { apply guarded_next_not_accept; [exact Eacc|].
        unfold Q0, Q1, Q2, Q3 in *. lia. }
      eexists; eexists. split; [reflexivity|]. cbn [Fsm4.my_state Fsm4.w_done].
      split.
      { split; [intros H; contradiction|].
        intros [H2 HC]. rewrite H2, HC in Eacc. discriminate. }
      split; [intros H; contradiction|]. intros _. auto.
  - destruct (worker_loop_spec S Fsm4.worker_init)
      as (w' & k & Hrun & Hst & Hlen & Hcases).
    + apply build_msg_length.
    + reflexivity.
    + discriminate.
    + exists w', k. fold (Fsm4.worker_main (map Fsm4.build_msg S)) in Hrun.
      destruct Hcases as [(H0 & H3 & Hk) | (H1 & H3 & Hk & HC & HQ2)].
      * rewrite H0 in Hrun. apply Z.eqb_neq in H3 as H3'. rewrite H3'.
        split; [exact Hrun|]. split; [auto|]. intros H; contradiction.
      * rewrite H1 in Hrun. rewrite H3. split; [exact Hrun|].
        split; [intros H; exfalso; apply H; reflexivity|]. intros _.
        repeat split; auto; try lia.
        intros more. unfold Fsm4.worker_main in *.
        rewrite map_app, worker_loop_app, Hrun.
        rewrite worker_loop_done by (rewrite H1; discriminate).
        rewrite app_nil_r. reflexivity.
Qed.

Lemma ack_sent_exactly_on_accepting_transition_witness :
  (exists w' tr,
     Fsm4.worker_iter (Fsm4.mkWorker Q2 0 (Fsm4.build_msg B)) (Fsm4.build_msg C) = Some (w', tr) /\
     (Fsm4.my_state w' = Q3 <-> Fsm4.my_state (Fsm4.mkWorker Q2 0 (Fsm4.build_msg B)) = Q2 /\ C = C) /\
     (Fsm4.my_state w' = Q3 ->
        tr = [Recv ROOT (Fsm4.build_msg C); Send ROOT (Fsm4.build_msg ACK)] /\
        Fsm4.w_done w' = 1 /\
        forall inbox, Fsm4.worker_loop w' inbox = Some (w', [])) /\
     (Fsm4.my_state w' <> Q3 ->
        tr = [Recv ROOT (Fsm4.build_msg C)] /\ Fsm4.w_done w' = 0)) /\
  (exists w' k,
     Fsm4.worker_main (map Fsm4.build_msg [C; B; A; B; C]) =
       Some (w', recvs_of (firstn k [C; B; A; B; C]) ++
                 (if Fsm4.my_state w' =? Q3
                  then [Send ROOT (Fsm4.build_msg ACK)] else [])) /\
     (Fsm4.my_state w' <> Q3 -> Fsm4.w_done w' = 0 /\ k = length [C; B; A; B; C]) /\
     (Fsm4.my_state w' = Q3 ->
        Fsm4.w_done w' = 1 /\ (0 < k <= length [C; B; A; B; C])%nat /\
        nth_error [C; B; A; B; C] (k - 1) = Some C /\
        fold_left guarded_next (firstn (k - 1) [C; B; A; B; C]) Q0 = Q2 /\
        forall more,
          Fsm4.worker_main (map Fsm4.build_msg ([C; B; A; B; C] ++ more)) =
          Fsm4.worker_main (map Fsm4.build_msg [C; B; A; B; C]))).
Proof.
  apply (ack_sent_exactly_on_accepting_transition
           (Fsm4.mkWorker Q2 0 (Fsm4.build_msg B)) C [C; B; A; B; C]).
  - reflexivity.
  - right; right; reflexivity.
  - reflexivity.
  - unfold is_symbol; tauto.
Defined.

(** ** The root of mpi-fsm-4.c *)

Section Root4.
Import Fsm4.

Lemma int_wrap_id (z : Z) : INT_MIN <= z <= INT_MAX -> int_wrap z = z.
Proof.
  unfold INT_MIN, INT_MAX, int_wrap. intros H.
  rewrite Z.mod_small by lia. lia.
Qed.

Lemma in_worker_ranks (num_nodes j : Z) :
  In j (worker_ranks num_nodes) <-> 1 <= j < num_nodes.
Proof.
  unfold worker_ranks. rewrite in_map_iff. split.
  - intros (k & <- & Hk). apply in_seq in Hk. lia.
  - intros H. exists (Z.to_nat j). split; [lia|]. apply in_seq. lia.
Qed.

Lemma worker_ranks_NoDup (num_nodes : Z) : NoDup (worker_ranks num_nodes).
Proof.
  unfold worker_ranks.
  generalize (seq_NoDup (Z.to_nat num_nodes - 1) 1).
  generalize (seq 1 (Z.to_nat num_nodes - 1)) as l.
  induction l as [|k l IH]; intros H; cbn [map]; [constructor|].
  inversion H as [|? ? Hk Hl]; subst. constructor; [|apply IH, Hl].
  rewrite in_map_iff. intros (k' & E & Hin).
  apply Nat2Z.inj in E. subst k'. contradiction.
Qed.

Lemma worker_ranks_length (num_nodes : Z) :
  1 <= num_nodes -> Z.of_nat (length (worker_ranks num_nodes)) = num_nodes - 1.
Proof.
  intros H. unfold worker_ranks. rewrite length_map, length_seq. lia.
Qed.

Lemma sends_to_app (j : Z) (t1 t2 : list event) :
  sends_to j (t1 ++ t2) = (sends_to j t1 + sends_to j t2)%nat.
Proof.
  induction t1 as [|[d b | src b] t1 IH]; cbn [app sends_to]; [reflexivity | |exact IH].
  destruct (d =? j); rewrite IH; reflexivity.
Qed.

Lemma recv_sources_app (t1 t2 : list event) :
  recv_sources (t1 ++ t2) = recv_sources t1 ++ recv_sources t2.
Proof.
  induction t1 as [|[d b | src b] t1 IH]; cbn [app recv_sources];
    [reflexivity | exact IH | rewrite IH; reflexivity].
Qed.

Lemma sends_of_app (t1 t2 : list event) :
  sends_of (t1 ++ t2) = sends_of t1 ++ sends_of t2.
Proof.
  induction t1 as [|[d b | src b] t1 IH]; cbn [app sends_of];
    [reflexivity | rewrite IH; reflexivity | exact IH].
Qed.

(** A broadcast is one send to each rank from 1 up, and no receive. *)
Lemma sends_to_map_Send (j : Z) (buf : list Z) (l : list Z) :
  NoDup l ->
  sends_to j (map (fun d => Send d buf) l) = if in_dec Z.eq_dec j l then 1%nat else 0%nat.
Proof.
  induction 1 as [|d l Hd Hl IH]; [reflexivity|].
  cbn [map sends_to]. rewrite IH.
  destruct (Z.eqb_spec d j) as [-> | Hne].
  - destruct (in_dec Z.eq_dec j l); [contradiction|].
    destruct (in_dec Z.eq_dec j (j :: l)) as [_ | n']; [reflexivity|].
    exfalso. apply n'. left. reflexivity.
  - destruct (in_dec Z.eq_dec j l) as [i | n];
      destruct (in_dec Z.eq_dec j (d :: l)) as [i' | n']; try reflexivity.
    + exfalso. apply n'. right. exact i.
    + destruct i' as [E | i']; [congruence | contradiction].
Qed.

Lemma sends_to_broadcast (num_nodes j : Z) (buf : list Z) :
  1 <= j < num_nodes -> sends_to j (broadcast num_nodes buf) = 1%nat.
Proof.
  intros H. unfold broadcast.
  rewrite sends_to_map_Send by apply worker_ranks_NoDup.
  destruct (in_dec Z.eq_dec j (worker_ranks num_nodes)) as [_ | n]; [reflexivity|].
  exfalso. apply n, in_worker_ranks, H.
Qed.

Lemma recv_sources_broadcast (num_nodes : Z) (buf : list Z) :
  recv_sources (broadcast num_nodes buf) = [].
Proof.
  unfold broadcast. induction (worker_ranks num_nodes) as [|d l IH];
    [reflexivity | exact IH].
Qed.

Lemma sends_of_broadcast (num_nodes : Z) (buf : list Z) :
  sends_of (broadcast num_nodes buf) =
  map (fun j => (j, buf)) (worker_ranks num_nodes).
Proof.
  unfold broadcast. induction (worker_ranks num_nodes) as [|d l IH];
    [reflexivity | cbn [map sends_of]; rewrite IH; reflexivity].
Qed.

Lemma root_loop_done (num_nodes : Z) (r : root) (rounds : list round) :
  done r <> 0 -> root_loop num_nodes r rounds = (r, []).
Proof.
  intros H. destruct rounds as [|i rest]; [reflexivity|].
  cbn [root_loop]. apply Z.eqb_neq in H. rewrite H. reflexivity.
Qed.

Lemma root_loop_app (num_nodes : Z) (r1 r2 : list round) : forall r : root,
  root_loop num_nodes r (r1 ++ r2) =
    (fst (root_loop num_nodes (fst (root_loop num_nodes r r1)) r2),
     snd (root_loop num_nodes r r1) ++
     snd (root_loop num_nodes (fst (root_loop num_nodes r r1)) r2)).
Proof.
  induction r1 as [|i r1 IH]; intros r.
  - cbn. destruct (root_loop num_nodes r r2); reflexivity.
  - cbn [app root_loop]. destruct (done r =? 0) eqn:Ed.
    + destruct (root_iter num_nodes r i) as [ra ea]. rewrite IH.
      destruct (root_loop num_nodes ra r1) as [rb eb]. cbn [fst snd].
      destruct (root_loop num_nodes rb r2) as [rc ec]. cbn [fst snd].
      rewrite app_assoc. reflexivity.
    + cbn [fst snd]. apply Z.eqb_neq in Ed.
      rewrite root_loop_done by exact Ed. reflexivity.
Qed.

(** One turn of the loop: what it sends, what it receives, what it does to
    the counter. *)
Lemma root_iter_events (num_nodes : Z) (r : root) (i : round) :
  sends_of (snd (root_iter num_nodes r i)) =
    map (fun j => (j, build_msg (get_random_msg (rnd i)))) (worker_ranks num_nodes) /\
  (forall j, 1 <= j < num_nodes ->
     sends_to j (snd (root_iter num_nodes r i)) = 1%nat) /\
  recv_sources (snd (root_iter num_nodes r i)) =
    match probe i with Some (source, _) => [source] | None => [] end.
Proof.
  unfold root_iter. destruct (probe i) as [[source incoming]|]; cbn [snd].
  - rewrite sends_of_app, recv_sources_app, sends_of_broadcast,
      recv_sources_broadcast. cbn [sends_of recv_sources app].
    rewrite app_nil_r. repeat split.
    intros j Hj. rewrite sends_to_app, sends_to_broadcast by exact Hj. reflexivity.
  - rewrite sends_of_broadcast, recv_sources_broadcast. repeat split.
    intros j Hj. apply sends_to_broadcast, Hj.
Qed.

Lemma root_iter_inv (num_nodes : Z) (r : root) (i : round) :
  1 <= num_nodes <= INT_MAX -> probe_ok num_nodes i ->
  root_inv num_nodes r -> done r = 0 ->
  root_inv num_nodes (fst (root_iter num_nodes r i)) /\
  ACK_COUNT (fst (root_iter num_nodes r i)) =
    ACK_COUNT r +
    Z.of_nat (length (recv_sources (snd (root_iter num_nodes r i)))).
Proof.
  intros Hn Hp (H0 & Hinv) Hd.
  destruct (root_iter_events num_nodes r i) as (_ & _ & Hrecv). rewrite Hrecv.
  clear Hrecv. unfold root_iter, probe_ok in *.
  destruct (probe i) as [[source incoming]|]; cbn [fst snd ACK_COUNT done].
  - destruct Hinv as [(_ & [Hlt | [H1 _]]) | (H1 & _)]; [|lia|lia].
    unfold INT_MAX in Hn.
    rewrite (int_wrap_id (ACK_COUNT r + 1)) by (unfold INT_MIN, INT_MAX; lia).
    rewrite (int_wrap_id (num_nodes - 1)) by (unfold INT_MIN, INT_MAX; lia).
    split; [|cbn; lia]. unfold root_inv. cbn [ACK_COUNT done].
    split; [lia|]. destruct (Z.eqb_spec (num_nodes - 1) (ACK_COUNT r + 1)).
    + right. lia.
    + left. lia.
  - split; [|cbn; lia]. unfold root_inv. cbn [ACK_COUNT done]. auto.
Qed.

(** The loop from any state that satisfies the invariant. *)
Lemma root_loop_spec (num_nodes : Z) (rounds : list round) : forall r : root,
  1 <= num_nodes <= INT_MAX ->
  Forall (probe_ok num_nodes) rounds ->
  root_inv num_nodes r ->
  root_inv num_nodes (fst (root_loop num_nodes r rounds)) /\
  ACK_COUNT (fst (root_loop num_nodes r rounds)) =
    ACK_COUNT r +
    Z.of_nat (length (recv_sources (snd (root_loop num_nodes r rounds)))) /\
  (forall s, In s (recv_sources (snd (root_loop num_nodes r rounds))) ->
     1 <= s < num_nodes) /\
  (forall j, 1 <= j < num_nodes ->
     (length (recv_sources (snd (root_loop num_nodes r rounds))) <=
      sends_to j (snd (root_loop num_nodes r rounds)))%nat).
Proof.
  induction rounds as [|i rest IH]; intros r Hn Hp Hinv.
  - cbn. split; [exact Hinv|]. split; [lia|]. split; [intros s []|].
    intros j _. lia.
  - cbn [root_loop]. destruct (done r =? 0) eqn:Ed.
    + apply Z.eqb_eq in Ed. inversion Hp as [|? ? Hpi Hprest]; subst.
      destruct (root_iter_inv num_nodes r i Hn Hpi Hinv Ed) as (Hinv1 & Hc1).
      destruct (root_iter_events num_nodes r i) as (_ & Hs1 & Hr1).
      destruct (root_iter num_nodes r i) as [r1 e1]. cbn [fst snd] in *.
      specialize (IH r1 Hn Hprest Hinv1).
      destruct (root_loop num_nodes r1 rest) as [r2 e2]. cbn [fst snd] in *.
      destruct IH as (Hinv2 & Hc2 & Hsrc2 & Hle2).
      split; [exact Hinv2|]. rewrite recv_sources_app, length_app.
      split; [lia|]. split.
      * intros s Hin. apply in_app_or in Hin as [Hin | Hin]; [|apply Hsrc2, Hin].
        rewrite Hr1 in Hin. unfold probe_ok in Hpi.
        destruct (probe i) as [[source incoming]|]; [|destruct Hin].
        destruct Hin as [<- | []]. exact Hpi.
      * intros j Hj. rewrite sends_to_app, (Hs1 j Hj).
        specialize (Hle2 j Hj). rewrite Hr1.
        destruct (probe i) as [[source incoming]|]; cbn [length]; lia.
    + cbn. split; [exact Hinv|]. split; [lia|]. split; [intros s []|].
      intros j _. lia.
Qed.

Lemma root_init_inv (num_nodes : Z) :
  1 <= num_nodes -> root_inv num_nodes root_init.
Proof.
  intros H. unfold root_inv, root_init. cbn [ACK_COUNT done]. lia.
Qed.

End Root4.

(** ** Claims about the root of mpi-fsm-4.c *)

(** Claim C6: at every point of a run of the root (after any prefix [pre] of
    its rounds) [done] is raised only if the number of counted
    acknowledgments equals the number of workers [num_nodes - 1]; the count
    after a longer prefix is never below the count after a shorter one; and
    once [done] is raised the loop has exited: further rounds add no event,
    so nothing more is broadcast.  Assumed of the environment: the
    communicator has between 1 and [INT_MAX] processes, and only ranks
    [1 .. num_nodes-1] send to the root. *)
Theorem root_completes_only_after_all_acks
    (num_nodes : Z) (pre post : list Fsm4.round) :
  1 <= num_nodes <= INT_MAX ->
  Forall (probe_ok num_nodes) (pre ++ post) ->
  (Fsm4.done (fst (Fsm4.root_main num_nodes pre)) <> 0 ->
     Fsm4.ACK_COUNT (fst (Fsm4.root_main num_nodes pre)) = num_nodes - 1 /\
     Z.of_nat (length (recv_sources (snd (Fsm4.root_main num_nodes pre))))
       = num_nodes - 1) /\
  Fsm4.ACK_COUNT (fst (Fsm4.root_main num_nodes pre)) <=
    Fsm4.ACK_COUNT (fst (Fsm4.root_main num_nodes (pre ++ post))) /\
  (Fsm4.done (fst (Fsm4.root_main num_nodes pre)) <> 0 ->
     Fsm4.root_main num_nodes (pre ++ post) = Fsm4.root_main num_nodes pre).
Proof.
  intros Hn Hp. apply Forall_app in Hp as [Hpre Hpost].
  unfold Fsm4.root_main.
  destruct (root_loop_spec num_nodes pre Fsm4.root_init Hn Hpre)
    as (Hinv1 & Hc1 & _ & _); [apply root_init_inv; lia|].
  rewrite root_loop_app. cbn [fst snd].
  destruct (root_loop_spec num_nodes post _ Hn Hpost Hinv1) as (_ & Hc2 & _ & _).
  split; [|split].
  - intros Hd. destruct Hinv1 as (_ & [(H0 & _) | (_ & Hc & _)]); [contradiction|].
    split; [exact Hc|]. cbn [Fsm4.ACK_COUNT Fsm4.root_init] in Hc1. lia.
  - lia.
  - intros Hd. rewrite root_loop_done by exact Hd. cbn [fst snd].
    rewrite app_nil_r. destruct (Fsm4.root_loop num_nodes Fsm4.root_init pre).
    reflexivity.
Qed.

Lemma root_completes_only_after_all_acks_witness :
  (Fsm4.done (fst (Fsm4.root_main 3
      [Fsm4.mkRound 7 (Some (2, Fsm4.build_msg ACK));
       Fsm4.mkRound 5 None;
       Fsm4.mkRound 4 (Some (1, Fsm4.build_msg ACK))])) <> 0 ->
     Fsm4.ACK_COUNT (fst (Fsm4.root_main 3
      [Fsm4.mkRound 7 (Some (2, Fsm4.build_msg ACK));
       Fsm4.mkRound 5 None;
       Fsm4.mkRound 4 (Some (1, Fsm4.build_msg ACK))])) = 3 - 1 /\
     Z.of_nat (length (recv_sources (snd (Fsm4.root_main 3
      [Fsm4.mkRound 7 (Some (2, Fsm4.build_msg ACK));
       Fsm4.mkRound 5 None;
       Fsm4.mkRound 4 (Some (1, Fsm4.build_msg ACK))]))))
       = 3 - 1) /\
  Fsm4.ACK_COUNT (fst (Fsm4.root_main 3
      [Fsm4.mkRound 7 (Some (2, Fsm4.build_msg ACK));
       Fsm4.mkRound 5 None;
       Fsm4.mkRound 4 (Some (1, Fsm4.build_msg ACK))])) <=
    Fsm4.ACK_COUNT (fst (Fsm4.root_main 3
      ([Fsm4.mkRound 7 (Some (2, Fsm4.build_msg ACK));
        Fsm4.mkRound 5 None;
        Fsm4.mkRound 4 (Some (1, Fsm4.build_msg ACK))] ++
       [Fsm4.mkRound 9 None]))) /\
  (Fsm4.done (fst (Fsm4.root_main 3
      [Fsm4.mkRound 7 (Some (2, Fsm4.build_msg ACK));
       Fsm4.mkRound 5 None;
       Fsm4.mkRound 4 (Some (1, Fsm4.build_msg ACK))])) <> 0 ->
     Fsm4.root_main 3
      ([Fsm4.mkRound 7 (Some (2, Fsm4.build_msg ACK));
        Fsm4.mkRound 5 None;
        Fsm4.mkRound 4 (Some (1, Fsm4.build_msg ACK))] ++
       [Fsm4.mkRound 9 None]) =
     Fsm4.root_main 3
      [Fsm4.mkRound 7 (Some (2, Fsm4.build_msg ACK));
       Fsm4.mkRound 5 None;
       Fsm4.mkRound 4 (Some (1, Fsm4.build_msg ACK))]).
Proof.
  apply (root_completes_only_after_all_acks 3
           [Fsm4.mkRound 7 (Some (2, Fsm4.build_msg ACK));
            Fsm4.mkRound 5 None;
            Fsm4.mkRound 4 (Some (1, Fsm4.build_msg ACK))]
           [Fsm4.mkRound 9 None]).
  - unfold INT_MAX. lia.
  - repeat constructor; unfold probe_ok; cbn; lia.
Defined.



(** Claim C2, as the specification states it, fails on the code: with three
    processes, a second message from rank 1 raises the count from 1 to 2, and
    after two messages from rank 1 the root reports completion although rank
    2 never acknowledged. *)
Lemma duplicate_ack_is_counted :
  ~ duplicate_ack_is_noop 3
      [Fsm4.mkRound 0 (Some (1, Fsm4.build_msg ACK))]
      (Fsm4.mkRound 0 (Some (1, Fsm4.build_msg ACK))) /\
  ~ complete_iff_all_acked 3
      [Fsm4.mkRound 0 (Some (1, Fsm4.build_msg ACK));
       Fsm4.mkRound 0 (Some (1, Fsm4.build_msg ACK))].
Proof.
  split.
  - intros H.
    specialize (H 1 (Fsm4.build_msg ACK) eq_refl (or_introl eq_refl)).
    vm_compute in H. discriminate.
  - intros [H _].
    assert (Hd : Fsm4.done (fst (Fsm4.root_main 3
              [Fsm4.mkRound 0 (Some (1, Fsm4.build_msg ACK));
               Fsm4.mkRound 0 (Some (1, Fsm4.build_msg ACK))])) <> 0)
      by (vm_compute; discriminate).
    specialize (H Hd 2 ltac:(lia)). vm_compute in H.
    destruct H as [H | [H | []]]; discriminate.
Qed.

(** Claim C2, amended: the root keeps one counter and no record per worker.
    With at least one worker, [ACK_COUNT] is the number of messages the root
    has received, whatever their sources, so a repeated acknowledgment is
    counted again; [done] is raised exactly when that count is
    [num_nodes - 1]; and when no rank has been received from twice, [done] is
    raised exactly when every worker rank has been received from. *)
Theorem ack_count_counts_messages (num_nodes : Z) (rounds : list Fsm4.round) :
  2 <= num_nodes <= INT_MAX ->
  Forall (probe_ok num_nodes) rounds ->
  Fsm4.ACK_COUNT (fst (Fsm4.root_main num_nodes rounds)) =
    Z.of_nat (length (recv_sources (snd (Fsm4.root_main num_nodes rounds)))) /\
  (Fsm4.done (fst (Fsm4.root_main num_nodes rounds)) <> 0 <->
   Fsm4.ACK_COUNT (fst (Fsm4.root_main num_nodes rounds)) = num_nodes - 1) /\
  (NoDup (recv_sources (snd (Fsm4.root_main num_nodes rounds))) ->
   complete_iff_all_acked num_nodes rounds).
Proof.
  intros Hn Hp. unfold complete_iff_all_acked, Fsm4.root_main.
  destruct (root_loop_spec num_nodes rounds Fsm4.root_init) as (Hinv & Hc & Hsrc & _);
    [lia | exact Hp | apply root_init_inv; lia |].
  cbn [Fsm4.ACK_COUNT Fsm4.root_init] in Hc. rewrite Z.add_0_l in Hc.
  assert (Hiff : Fsm4.done (fst (Fsm4.root_loop num_nodes Fsm4.root_init rounds)) <> 0 <->
                 Fsm4.ACK_COUNT (fst (Fsm4.root_loop num_nodes Fsm4.root_init rounds))
                   = num_nodes - 1).
  { destruct Hinv as (_ & [(H0 & Hlt) | (H1 & Hfull & _)]); split; intros H;
      try lia; try contradiction; try exact Hfull. }
  split; [exact Hc|]. split; [exact Hiff|]. intros Hnd.
  set (l := recv_sources (snd (Fsm4.root_loop num_nodes Fsm4.root_init rounds))) in *.
  assert (Hincl : incl l (worker_ranks num_nodes)).
  { intros s Hs. apply in_worker_ranks, Hsrc, Hs. }
  pose proof (worker_ranks_length num_nodes ltac:(lia)) as Hlen.
  rewrite Hiff, Hc. split.
  - intros Hfull j Hj.
    apply (@NoDup_length_incl Z l (worker_ranks num_nodes) Hnd);
      [lia | exact Hincl | apply in_worker_ranks, Hj].
  - intros Hall.
    assert (Hincl' : incl (worker_ranks num_nodes) l).
    { intros j Hj. apply Hall, in_worker_ranks, Hj. }
    pose proof (@NoDup_incl_length Z _ _ Hnd Hincl).
    pose proof (@NoDup_incl_length Z _ _ (worker_ranks_NoDup num_nodes) Hincl').
    lia.
Qed.

Lemma ack_count_counts_messages_witness :
  Fsm4.ACK_COUNT (fst (Fsm4.root_main 3
      [Fsm4.mkRound 7 (Some (2, Fsm4.build_msg ACK));
       Fsm4.mkRound 5 None;
       Fsm4.mkRound 4 (Some (1, Fsm4.build_msg ACK))])) =
    Z.of_nat (length (recv_sources (snd (Fsm4.root_main 3
      [Fsm4.mkRound 7 (Some (2, Fsm4.build_msg ACK));
       Fsm4.mkRound 5 None;
       Fsm4.mkRound 4 (Some (1, Fsm4.build_msg ACK))])))) /\
  (Fsm4.done (fst (Fsm4.root_main 3
      [Fsm4.mkRound 7 (Some (2, Fsm4.build_msg ACK));
       Fsm4.mkRound 5 None;
       Fsm4.mkRound 4 (Some (1, Fsm4.build_msg ACK))])) <> 0 <->
   Fsm4.ACK_COUNT (fst (Fsm4.root_main 3
      [Fsm4.mkRound 7 (Some (2, Fsm4.build_msg ACK));
       Fsm4.mkRound 5 None;
       Fsm4.mkRound 4 (Some (1, Fsm4.build_msg ACK))])) = 3 - 1) /\
  (NoDup (recv_sources (snd (Fsm4.root_main 3
      [Fsm4.mkRound 7 (Some (2, Fsm4.build_msg ACK));
       Fsm4.mkRound 5 None;
       Fsm4.mkRound 4 (Some (1, Fsm4.build_msg ACK))]))) ->
   complete_iff_all_acked 3
      [Fsm4.mkRound 7 (Some (2, Fsm4.build_msg ACK));
       Fsm4.mkRound 5 None;
       Fsm4.mkRound 4 (Some (1, Fsm4.build_msg ACK))]).
Proof.
  apply (ack_count_counts_messages 3
           [Fsm4.mkRound 7 (Some (2, Fsm4.build_msg ACK));
            Fsm4.mkRound 5 None;
            Fsm4.mkRound 4 (Some (1, Fsm4.build_msg ACK))]).
  - unfold INT_MAX. lia.
  - repeat constructor; unfold probe_ok; cbn; lia.
Defined.

(** ** The root of mpi-fsm-2.c *)

Section Root2.

Variable num_nodes : Z.
Variable rand : nat -> Z.

Lemma root_for_spec (k : nat) : forall (fuel i : nat),
  (i + k = 50)%nat -> (k <= fuel)%nat ->
  Fsm2.root_for fuel num_nodes rand (Z.of_nat i) =
    Some (flat_map (Fsm2.round_events num_nodes rand) (seq i k)).
Proof.
  induction k as [|k IH]; intros fuel i Hi Hf.
  - assert (E : (Z.of_nat i <? 50) = false) by (apply Z.ltb_ge; lia).
    destruct fuel; cbn [Fsm2.root_for]; rewrite E; reflexivity.
  - destruct fuel as [|fuel]; [lia|].
    assert (E : (Z.of_nat i <? 50) = true) by (apply Z.ltb_lt; lia).
    cbn [Fsm2.root_for]. rewrite E, Nat2Z.id.
    replace (Z.of_nat i + 1) with (Z.of_nat (Datatypes.S i)) by lia.
    rewrite IH by lia. reflexivity.
Qed.

Lemma flat_map_round_counts (k : nat) : forall i : nat,
  (forall j, 1 <= j < num_nodes ->
     sends_to j (flat_map (Fsm2.round_events num_nodes rand) (seq i k)) = k) /\
  recv_sources (flat_map (Fsm2.round_events num_nodes rand) (seq i k)) = [] /\
  length (flat_map (Fsm2.round_events num_nodes rand) (seq i k)) =
    (k * length (worker_ranks num_nodes))%nat.
Proof.
  induction k as [|k IH]; intros i; cbn [seq flat_map].
  - repeat split.
  - destruct (IH (Datatypes.S i)) as (Hs & Hr & Hl). split; [|split].
    + intros j Hj. unfold Fsm2.round_events at 1.
      rewrite sends_to_app, sends_to_broadcast by exact Hj.
      rewrite (Hs j Hj). reflexivity.
    + unfold Fsm2.round_events at 1.
      rewrite recv_sources_app, recv_sources_broadcast. exact Hr.
    + rewrite length_app, Hl. unfold Fsm2.round_events at 1, broadcast.
      rewrite length_map. reflexivity.
Qed.

End Root2.

(** Claim C8: the root of mpi-fsm-2.c takes exactly 50 turns and stops.  In
    turn [i] it sends the symbol drawn in that turn to each rank from 1 up,
    so every other process is sent exactly 50 symbols; the root receives
    nothing, and its run is a function of [num_nodes] and of the values of
    [rand()] alone: no worker's progress and no acknowledgment enters it.
    Fifty units of fuel are enough and more change nothing. *)
Theorem fixed_variant_broadcasts_50_rounds
    (num_nodes : Z) (rand : nat -> Z) (extra : nat) :
  exists tr,
    Fsm2.root_main (50 + extra) num_nodes rand = Some tr /\
    tr = flat_map (Fsm2.round_events num_nodes rand) (seq 0 50) /\
    (forall j, 1 <= j < num_nodes -> sends_to j tr = 50%nat) /\
    recv_sources tr = [] /\
    length tr = (50 * length (worker_ranks num_nodes))%nat /\
    Fsm2.root_main 49 num_nodes rand = None.
Proof.
  eexists. split; [|split; [reflexivity|]].
  - unfold Fsm2.root_main. apply (root_for_spec num_nodes rand 50 (50 + extra) 0); lia.
  - destruct (flat_map_round_counts num_nodes rand 50 0%nat) as (Hs & Hr & Hl).
    split; [exact Hs|]. split; [exact Hr|]. split; [exact Hl|].
    vm_compute. reflexivity.
Qed.

(** ** The scenarios of the specification, run on the model *)

Example scenario_CBABC :
  option_map (fun r => (Fsm4.my_state (fst r), sends_of (snd r)))
             (Fsm4.worker_main (map Fsm4.build_msg [C; B; A; B; C])) =
  Some (Q3, [(ROOT, Fsm4.build_msg ACK)]).
Proof. vm_compute. reflexivity. Qed.

Example scenario_AABBC :
  option_map (fun r => (Fsm4.my_state (fst r), sends_of (snd r)))
             (Fsm4.worker_main (map Fsm4.build_msg [A; A; B; B; C])) =
  Some (Q3, [(ROOT, Fsm4.build_msg ACK)]).
Proof. vm_compute. reflexivity. Qed.

Example scenario_AB_only :
  option_map (fun r => (Fsm4.my_state (fst r), sends_of (snd r)))
             (Fsm4.worker_main (map Fsm4.build_msg [A; B])) =
  Some (Q2, []).
Proof. vm_compute. reflexivity. Qed.

Example scenario_three_workers :
  let r := fst (Fsm4.root_main 4
                  [Fsm4.mkRound 0 None;
                   Fsm4.mkRound 1 (Some (2, Fsm4.build_msg ACK));
                   Fsm4.mkRound 2 (Some (1, Fsm4.build_msg ACK));
                   Fsm4.mkRound 5 (Some (3, Fsm4.build_msg ACK));
                   Fsm4.mkRound 8 None]) in
  (Fsm4.ACK_COUNT r, Fsm4.done r) = (3, 1).
Proof. vm_compute. reflexivity. Qed.

(** * Further properties of the two programs *)

(** ** Array bounds of the transition functions *)

Section Bounds.

Lemma index_Some_range {T : Type} (a : list T) (i : Z) :
  index a i <> None <-> 0 <= i < Z.of_nat (length a).
Proof.
  unfold index. destruct (Z.ltb_spec i 0) as [Hneg | Hpos].
  - split; [intros H; contradiction | lia].
  - rewrite nth_error_Some. lia.
Qed.

Lemma DELTA_PROC_rows (state : Z) (row : list Z) :
  index DELTA_PROC state = Some row -> length row = 3%nat.
Proof.
  unfold index. destruct (state <? 0); [discriminate|].
  intros H. apply nth_error_In in H.
  repeat (destruct H as [<- | H]; [reflexivity|]). destruct H.
Qed.

Lemma DELTA_ROOT_rows (state : Z) (row : list Z) :
  index DELTA_ROOT state = Some row -> length row = 3%nat.
Proof.
  unfold index. destruct (state <? 0); [discriminate|].
  intros H. apply nth_error_In in H.
  destruct H as [<- | []]. reflexivity.
Qed.

Lemma next_state_proc_defined (state symbol : Z) :
  next_state_proc state symbol <> None <->
  0 <= state <= 3 /\ 0 <= symbol <= 2.
Proof.
  unfold next_state_proc. split.
  - destruct (index DELTA_PROC state) as [row|] eqn:Erow; [|intros H; contradiction].
    intros H. apply index_Some_range in H.
    rewrite (DELTA_PROC_rows _ _ Erow) in H.
    assert (Hs : index DELTA_PROC state <> None) by (rewrite Erow; discriminate).
    apply index_Some_range in Hs. cbn [length DELTA_PROC] in Hs. lia.
  - intros [Hq Hs].
    assert (Eq : state = 0 \/ state = 1 \/ state = 2 \/ state = 3) by lia.
    assert (Es : symbol = 0 \/ symbol = 1 \/ symbol = 2) by lia.
    destruct Eq as [-> | [-> | [-> | ->]]]; destruct Es as [-> | [-> | ->]];
      discriminate.
Qed.

End Bounds.

(** X1.  [next_state_proc] reads inside [DELTA_PROC] exactly when the state
    is one of 0..3 and the symbol one of 0..2; any other argument, among them
    the symbol ACK, indexes outside the array.  When it is defined the
    result is again a state, and it is the argument state or the one after
    it. *)
Theorem next_state_proc_bounds (state symbol : Z) :
  (next_state_proc state symbol <> None <->
   0 <= state <= 3 /\ 0 <= symbol <= 2) /\
  (forall q, next_state_proc state symbol = Some q ->
     is_state q /\ (q = state \/ q = state + 1)) /\
  next_state_proc state ACK = None.
Proof.
  split; [apply next_state_proc_defined|]. split.
  - intros q Hq.
    assert (Hd : next_state_proc state symbol <> None) by (rewrite Hq; discriminate).
    apply next_state_proc_defined in Hd as [Hst Hsy].
    assert (Eq : state = 0 \/ state = 1 \/ state = 2 \/ state = 3) by lia.
    assert (Es : symbol = 0 \/ symbol = 1 \/ symbol = 2) by lia.
    destruct Eq as [-> | [-> | [-> | ->]]]; destruct Es as [-> | [-> | ->]];
      cbv in Hq; injection Hq as <-; unfold is_state; cbv; intuition discriminate.
  - destruct (next_state_proc state ACK) eqn:E; [|reflexivity].
    assert (Hd : next_state_proc state ACK <> None) by (rewrite E; discriminate).
    apply next_state_proc_defined in Hd. unfold ACK in Hd. lia.
Qed.

(** X2.  [next_state_root] reads inside [DELTA_ROOT] exactly when the state
    is R0 and the symbol one of 0..2, and then it answers R0: the root's
    automaton has no way out of its single state. *)
Theorem next_state_root_bounds (state symbol : Z) :
  (next_state_root state symbol <> None <->
   state = R0 /\ 0 <= symbol <= 2) /\
  (forall q, next_state_root state symbol = Some q -> q = R0).
Proof.
  assert (Hdef : next_state_root state symbol <> None <->
                 state = R0 /\ 0 <= symbol <= 2).
  { unfold next_state_root, R0. split.
    - destruct (index DELTA_ROOT state) as [row|] eqn:Erow; [|intros H; contradiction].
      intros H. apply index_Some_range in H.
      rewrite (DELTA_ROOT_rows _ _ Erow) in H.
      assert (Hs : index DELTA_ROOT state <> None) by (rewrite Erow; discriminate).
      apply index_Some_range in Hs. cbn [length DELTA_ROOT] in Hs. lia.
    - intros [-> Hs].
      assert (Es : symbol = 0 \/ symbol = 1 \/ symbol = 2) by lia.
      destruct Es as [-> | [-> | ->]]; discriminate. }
  split; [exact Hdef|].
  intros q Hq.
  assert (Hd : next_state_root state symbol <> None) by (rewrite Hq; discriminate).
  apply Hdef in Hd as [-> Hs].
  assert (Es : symbol = 0 \/ symbol = 1 \/ symbol = 2) by lia.
  destruct Es as [-> | [-> | ->]]; cbv in Hq; injection Hq as <-; reflexivity.
Qed.

(** ** The worker of mpi-fsm-4.c on arbitrary messages *)

Section WorkerAnyInbox.
Import Fsm4.

Lemma full_buffer_head (buf : list Z) :
  length buf = Z.to_nat MSG_SIZE -> exists x, index buf 0 = Some x.
Proof.
  destruct buf as [|x buf]; [intros H; vm_compute in H; discriminate|].
  intros _. exists x. reflexivity.
Qed.

Lemma recv_into_head (buf : list Z) (x : Z) (m : list Z) :
  length buf = Z.to_nat MSG_SIZE -> index (recv_into buf (x :: m)) 0 = Some x.
Proof.
  intros H. unfold recv_into. rewrite H.
  change (Z.to_nat MSG_SIZE) with (Datatypes.S 99). reflexivity.
Qed.

Lemma recv_into_nothing (buf : list Z) : recv_into buf [] = buf.
Proof. unfold recv_into. cbn [length skipn app]. apply firstn_all. Qed.

(** The loop on any inbox at all, from any state the loop can be in. *)
Lemma worker_loop_any (inbox : list (list Z)) : forall w : worker,
  length (w_msg w) = Z.to_nat MSG_SIZE ->
  is_state (my_state w) -> w_done w = 0 -> my_state w <> Q3 ->
  exists w' tr,
    worker_loop w inbox = Some (w', tr) /\
    is_state (my_state w') /\
    length (w_msg w') = Z.to_nat MSG_SIZE /\
    (w_done w' = 0 /\ my_state w' <> Q3 /\ sends_of tr = [] \/
     w_done w' = 1 /\ my_state w' = Q3 /\
       sends_of tr = [(ROOT, build_msg ACK)]) /\
    (Forall (fun m => m <> []) inbox ->
     my_state w' = fold_left guarded_next (map (hd 0) inbox) (my_state w)).
Proof.
  induction inbox as [|m inbox IH]; intros w Hl Hq Hd H3.
  - exists w, []. cbn. repeat split; auto.
  - cbn [worker_loop]. rewrite Hd. cbn [Z.eqb]. unfold worker_iter.
    set (buf := recv_into (w_msg w) m).
    assert (Hbl : length buf = Z.to_nat MSG_SIZE)
      by (unfold buf; rewrite recv_into_length; exact Hl).
    destruct (full_buffer_head buf Hbl) as (x & Hx).
    assert (Hhd : forall y m', m = y :: m' -> x = y).
    { intros y m' ->. unfold buf in Hx.
      rewrite (recv_into_head _ _ _ Hl) in Hx. congruence. }
    rewrite (worker_switch_spec _ x) by exact Hx.
    cbn [my_state w_done w_msg].
    destruct ((my_state w =? Q2) && (x =? C)) eqn:Eacc.
    + rewrite worker_loop_done by (cbn; lia).
      eexists; eexists. split; [reflexivity|].
      cbn [my_state w_done w_msg app sends_of].
      split; [unfold is_state; tauto|]. split; [apply build_msg_length|].
      split; [right; rewrite Hd; auto|].
      intros Hne. inversion Hne as [|? ? Hm Hrest]; subst.
      destruct m as [|y m']; [contradiction|]. cbn [map hd fold_left].
      rewrite <- (Hhd y m' eq_refl), (guarded_next_accept _ _ Eacc).
      symmetry. apply fold_guarded_next_Q3.
    + destruct (IH (mkWorker (guarded_next (my_state w) x) (w_done w) buf))
        as (w' & tr & Hrun & Hst & Hlen & Hcases & Hfold).
      * exact Hbl.
      * apply guarded_next_is_state, Hq.
      * exact Hd.
      * cbn. apply guarded_next_not_accept; assumption.
      * rewrite Hrun. exists w'. eexists. split; [reflexivity|].
        split; [exact Hst|]. split; [exact Hlen|].
        cbn [app sends_of]. split; [exact Hcases|].
        intros Hne. inversion Hne as [|? ? Hm Hrest]; subst.
        destruct m as [|y m']; [contradiction|]. cbn [map hd fold_left].
        rewrite <- (Hhd y m' eq_refl). apply Hfold, Hrest.
Qed.

End WorkerAnyInbox.

(** X3.  Whatever the transport delivers to a worker of mpi-fsm-4.c (buffers
    of any length that fits the receive, empty ones included, holding any
    ints) the worker reads no array out of bounds, its state stays among
    Q0..Q3, its buffer keeps its MSG_SIZE slots, [done] is 1 exactly when the
    state is Q3, and the only thing it ever sends is the one acknowledgment
    to the root, sent exactly when [done] is raised. *)
Theorem worker_safe_on_any_inbox (inbox : list (list Z)) :
  Forall (fun m => (length m <= Z.to_nat MSG_SIZE)%nat) inbox ->
  exists w tr,
    Fsm4.worker_main inbox = Some (w, tr) /\
    is_state (Fsm4.my_state w) /\
    length (Fsm4.w_msg w) = Z.to_nat MSG_SIZE /\
    (Fsm4.w_done w = 0 \/ Fsm4.w_done w = 1) /\
    (Fsm4.w_done w = 1 <-> Fsm4.my_state w = Q3) /\
    sends_of tr =
      (if Fsm4.w_done w =? 0 then [] else [(ROOT, Fsm4.build_msg ACK)]).
Proof.
  intros _.
  destruct (worker_loop_any inbox Fsm4.worker_init)
    as (w & tr & Hrun & Hst & Hlen & Hcases & _).
  - apply build_msg_length.
  - unfold is_state; tauto.
  - reflexivity.
  - discriminate.
  - exists w, tr. split; [exact Hrun|]. split; [exact Hst|]. split; [exact Hlen|].
    destruct Hcases as [(H0 & H3 & Hs) | (H1 & H3 & Hs)].
    + rewrite H0. cbn [Z.eqb]. repeat split; auto; intros; try lia; contradiction.
    + rewrite H1. cbn [Z.eqb]. repeat split; auto.
Qed.

Lemma worker_safe_on_any_inbox_witness :
  exists w tr,
    Fsm4.worker_main [[C]; []; [ACK; A]; [-1]; Fsm4.build_msg A; [7; 7]]
      = Some (w, tr) /\
    is_state (Fsm4.my_state w) /\
    length (Fsm4.w_msg w) = Z.to_nat MSG_SIZE /\
    (Fsm4.w_done w = 0 \/ Fsm4.w_done w = 1) /\
    (Fsm4.w_done w = 1 <-> Fsm4.my_state w = Q3) /\
    sends_of tr =
      (if Fsm4.w_done w =? 0 then [] else [(ROOT, Fsm4.build_msg ACK)]).
Proof.
  apply (worker_safe_on_any_inbox
           [[C]; []; [ACK; A]; [-1]; Fsm4.build_msg A; [7; 7]]).
  repeat constructor; vm_compute; discriminate.
Defined.

(** X4.  A worker of mpi-fsm-4.c looks at the first slot of each message
    only: on an inbox of non-empty buffers that fit the receive its final
    state is the guarded
    automaton run over the first elements, so it reaches Q3 exactly when the
    first elements contain A, later B, later C, whatever the other slots
    hold. *)
Theorem worker_reads_first_slot_only (inbox : list (list Z)) :
  Forall (fun m => m <> [] /\ (length m <= Z.to_nat MSG_SIZE)%nat) inbox ->
  exists w tr,
    Fsm4.worker_main inbox = Some (w, tr) /\
    Fsm4.my_state w = fold_left guarded_next (map (hd 0) inbox) Q0 /\
    (Fsm4.my_state w = Q3 <-> contains_ABC (map (hd 0) inbox)).
Proof.
  intros Hok.
  assert (Hne : Forall (fun m : list Z => m <> []) inbox).
  { revert Hok. apply Forall_impl. intros m [H _]. exact H. }
  destruct (worker_loop_any inbox Fsm4.worker_init)
    as (w & tr & Hrun & _ & _ & _ & Hfold).
  - apply build_msg_length.
  - unfold is_state; tauto.
  - reflexivity.
  - discriminate.
  - exists w, tr. split; [exact Hrun|]. specialize (Hfold Hne).
    cbn [Fsm4.my_state Fsm4.worker_init] in Hfold. split; [exact Hfold|].
    rewrite Hfold, contains_ABC_iff.
    apply (fold_guarded_next_subseq _ Q0). unfold is_state; tauto.
Qed.

Lemma worker_reads_first_slot_only_witness :
  exists w tr,
    Fsm4.worker_main [[A; C; C]; [B]; [C; 7; ACK; A]] = Some (w, tr) /\
    Fsm4.my_state w =
      fold_left guarded_next (map (hd 0) [[A; C; C]; [B]; [C; 7; ACK; A]]) Q0 /\
    (Fsm4.my_state w = Q3 <->
     contains_ABC (map (hd 0) [[A; C; C]; [B]; [C; 7; ACK; A]])).
Proof.
  apply (worker_reads_first_slot_only [[A; C; C]; [B]; [C; 7; ACK; A]]).
  repeat constructor; try discriminate; vm_compute; discriminate.
Defined.

(** ** The language the worker stops on *)

Section StopLanguage.
Import Fsm4.

Lemma consumed_le (S : list Z) : forall q, (consumed q S <= length S)%nat.
Proof.
  induction S as [|s S IH]; intros q; cbn [consumed length]; [lia|].
  destruct ((q =? Q2) && (s =? C)); [lia|]. specialize (IH (guarded_next q s)). lia.
Qed.

(** The trace of the loop, with the number of receives given by [consumed]. *)
Lemma worker_loop_consumed (S : list Z) : forall w : worker,
  length (w_msg w) = Z.to_nat MSG_SIZE ->
  w_done w = 0 -> my_state w <> Q3 ->
  exists w',
    worker_loop w (map build_msg S) =
      Some (w', recvs_of (firstn (consumed (my_state w) S) S) ++
                (if w_done w' =? 0 then [] else [Send ROOT (build_msg ACK)])) /\
    my_state w' = fold_left guarded_next S (my_state w) /\
    (w_done w' = 0 /\ my_state w' <> Q3 \/ w_done w' = 1 /\ my_state w' = Q3).
Proof.
  induction S as [|s S IH]; intros w Hl Hd Hq.
  - exists w. cbn. rewrite Hd. cbn. auto.
  - cbn [map worker_loop consumed]. rewrite Hd. cbn [Z.eqb].
    rewrite worker_iter_spec by exact Hl.
    destruct ((my_state w =? Q2) && (s =? C)) eqn:Eacc.
    + rewrite worker_loop_done by (cbn; lia). rewrite Hd. cbn [Z.add].
      exists (mkWorker Q3 1 (build_msg ACK)).
      cbn [w_done my_state fold_left firstn]. split; [reflexivity|].
      rewrite (guarded_next_accept _ _ Eacc), fold_guarded_next_Q3. auto.
    + destruct (IH (mkWorker (guarded_next (my_state w) s) (w_done w) (build_msg s)))
        as (w' & Hrun & Hst & Hcases).
      * apply build_msg_length.
      * exact Hd.
      * cbn. apply guarded_next_not_accept; assumption.
      * cbn [my_state w_done w_msg] in *. rewrite Hrun.
        exists w'. split; [reflexivity|]. split; [exact Hst | exact Hcases].
Qed.

Lemma recvs_of_events (l : list Z) :
  sends_of (recvs_of l) = [] /\ length (recv_sources (recvs_of l)) = length l.
Proof.
  induction l as [|s l [IH1 IH2]]; [split; reflexivity|].
  unfold recvs_of in *. cbn [map sends_of recv_sources length].
  split; [exact IH1 | f_equal; exact IH2].
Qed.

(** A stretch of symbols on which state [q] neither moves nor accepts. *)
Lemma stay_stretch (l rest : list Z) (q : Z) :
  Forall (fun s => guarded_next q s = q /\ (q =? Q2) && (s =? C) = false) l ->
  fold_left guarded_next (l ++ rest) q = fold_left guarded_next rest q /\
  consumed q (l ++ rest) = (length l + consumed q rest)%nat.
Proof.
  induction 1 as [|s l [Hs Ha] _ [IH1 IH2]]; [split; reflexivity|].
  cbn [app fold_left consumed length]. rewrite Ha, Hs, IH1, IH2.
  split; reflexivity.
Qed.

Lemma regex_drives_to_Q3 (S : list Z) :
  matches_regex S ->
  Forall is_symbol S /\
  fold_left guarded_next S Q0 = Q3 /\ consumed Q0 S = length S.
Proof.
  intros (l1 & l2 & l3 & -> & H1 & H2 & H3). split.
  - apply Forall_app; split;
      [revert H1; apply Forall_impl; intros s; unfold is_symbol; tauto|].
    constructor; [unfold is_symbol; tauto|].
    apply Forall_app; split;
      [revert H2; apply Forall_impl; intros s; unfold is_symbol; tauto|].
    constructor; [unfold is_symbol; tauto|].
    apply Forall_app; split;
      [revert H3; apply Forall_impl; intros s; unfold is_symbol; tauto|].
    constructor; [unfold is_symbol; tauto | constructor].
  - assert (S1 : Forall (fun s => guarded_next Q0 s = Q0 /\
                                 (Q0 =? Q2) && (s =? C) = false) l1).
    { revert H1. apply Forall_impl. intros s [-> | ->]; split; reflexivity. }
    assert (S2 : Forall (fun s => guarded_next Q1 s = Q1 /\
                                 (Q1 =? Q2) && (s =? C) = false) l2).
    { revert H2. apply Forall_impl. intros s [-> | ->]; split; reflexivity. }
    assert (S3 : Forall (fun s => guarded_next Q2 s = Q2 /\
                                 (Q2 =? Q2) && (s =? C) = false) l3).
    { revert H3. apply Forall_impl. intros s [-> | ->]; split; reflexivity. }
    destruct (stay_stretch l1 (A :: l2 ++ B :: l3 ++ [C]) Q0 S1) as [F1 C1].
    destruct (stay_stretch l2 (B :: l3 ++ [C]) Q1 S2) as [F2 C2].
    destruct (stay_stretch l3 [C] Q2 S3) as [F3 C3].
    rewrite F1, C1. cbn [fold_left consumed].
    change (guarded_next Q0 A) with Q1.
    change ((Q0 =? Q2) && (A =? C)) with false. cbn iota.
    rewrite F2, C2. cbn [fold_left consumed].
    change (guarded_next Q1 B) with Q2.
    change ((Q1 =? Q2) && (B =? C)) with false. cbn iota.
    rewrite F3, C3. split; [reflexivity|].
    cbn [consumed]. change ((Q2 =? Q2) && (C =? C)) with true. cbn iota.
    repeat first [rewrite length_app | progress cbn [length]]. lia.
Qed.

Lemma stop_from_Q2 (S : list Z) :
  Forall is_symbol S ->
  fold_left guarded_next S Q2 = Q3 -> consumed Q2 S = length S ->
  exists l3, S = l3 ++ [C] /\ Forall (fun s => s = A \/ s = B) l3.
Proof.
  induction 1 as [|s S Hs HS IH]; intros Hf Hc; [discriminate Hf|].
  destruct Hs as [-> | [-> | ->]].
  - cbn [fold_left consumed length] in Hf, Hc.
    change (guarded_next Q2 A) with Q2 in Hf, Hc.
    change ((Q2 =? Q2) && (A =? C)) with false in Hc. cbn iota in Hc.
    destruct (IH Hf ltac:(lia)) as (l3 & -> & H3).
    exists (A :: l3). split; [reflexivity | constructor; tauto].
  - cbn [fold_left consumed length] in Hf, Hc.
    change (guarded_next Q2 B) with Q2 in Hf, Hc.
    change ((Q2 =? Q2) && (B =? C)) with false in Hc. cbn iota in Hc.
    destruct (IH Hf ltac:(lia)) as (l3 & -> & H3).
    exists (B :: l3). split; [reflexivity | constructor; tauto].
  - cbn [consumed length] in Hc.
    change ((Q2 =? Q2) && (C =? C)) with true in Hc. cbn iota in Hc.
    destruct S; [|discriminate Hc]. exists []. split; [reflexivity | constructor].
Qed.

Lemma stop_from_Q1 (S : list Z) :
  Forall is_symbol S ->
  fold_left guarded_next S Q1 = Q3 -> consumed Q1 S = length S ->
  exists l2 l3, S = l2 ++ B :: l3 ++ [C] /\
    Forall (fun s => s = A \/ s = C) l2 /\ Forall (fun s => s = A \/ s = B) l3.
Proof.
  induction 1 as [|s S Hs HS IH]; intros Hf Hc; [discriminate Hf|].
  destruct Hs as [-> | [-> | ->]].
  - cbn [fold_left consumed length] in Hf, Hc.
    change (guarded_next Q1 A) with Q1 in Hf, Hc.
    change ((Q1 =? Q2) && (A =? C)) with false in Hc. cbn iota in Hc.
    destruct (IH Hf ltac:(lia)) as (l2 & l3 & -> & H2 & H3).
    exists (A :: l2), l3. split; [reflexivity|]. split; [constructor; tauto | exact H3].
  - cbn [fold_left consumed length] in Hf, Hc.
    change (guarded_next Q1 B) with Q2 in Hf, Hc.
    change ((Q1 =? Q2) && (B =? C)) with false in Hc. cbn iota in Hc.
    destruct (stop_from_Q2 S HS Hf ltac:(lia)) as (l3 & -> & H3).
    exists [], l3. split; [reflexivity|]. split; [constructor | exact H3].
  - cbn [fold_left consumed length] in Hf, Hc.
    change (guarded_next Q1 C) with Q1 in Hf, Hc.
    change ((Q1 =? Q2) && (C =? C)) with false in Hc. cbn iota in Hc.
    destruct (IH Hf ltac:(lia)) as (l2 & l3 & -> & H2 & H3).
    exists (C :: l2), l3. split; [reflexivity|]. split; [constructor; tauto | exact H3].
Qed.

Lemma stop_from_Q0 (S : list Z) :
  Forall is_symbol S ->
  fold_left guarded_next S Q0 = Q3 -> consumed Q0 S = length S ->
  matches_regex S.
Proof.
  unfold matches_regex.
  induction 1 as [|s S Hs HS IH]; intros Hf Hc; [discriminate Hf|].
  destruct Hs as [-> | [-> | ->]].
  - cbn [fold_left consumed length] in Hf, Hc.
    change (guarded_next Q0 A) with Q1 in Hf, Hc.
    change ((Q0 =? Q2) && (A =? C)) with false in Hc. cbn iota in Hc.
    destruct (stop_from_Q1 S HS Hf ltac:(lia)) as (l2 & l3 & -> & H2 & H3).
    exists [], l2, l3. split; [reflexivity|]. split; [constructor | tauto].
  - cbn [fold_left consumed length] in Hf, Hc.
    change (guarded_next Q0 B) with Q0 in Hf, Hc.
    change ((Q0 =? Q2) && (B =? C)) with false in Hc. cbn iota in Hc.
    destruct (IH Hf ltac:(lia)) as (l1 & l2 & l3 & -> & H1 & H2 & H3).
    exists (B :: l1), l2, l3. split; [reflexivity|].
    split; [constructor; tauto | tauto].
  - cbn [fold_left consumed length] in Hf, Hc.
    change (guarded_next Q0 C) with Q0 in Hf, Hc.
    change ((Q0 =? Q2) && (C =? C)) with false in Hc. cbn iota in Hc.
    destruct (IH Hf ltac:(lia)) as (l1 & l2 & l3 & -> & H1 & H2 & H3).
    exists (C :: l1), l2, l3. split; [reflexivity|].
    split; [constructor; tauto | tauto].
Qed.

End StopLanguage.

(** X5.  The regular expression in the comment above [DELTA_PROC],
    (B|C)*A(A|C)*B(A|B)*C, is exactly the language the worker stops on: a
    worker of mpi-fsm-4.c receives every symbol of [S] and acknowledges
    right after the last one if and only if [S] is a word over A, B, C that
    matches the expression. *)
Theorem worker_stops_exactly_on_the_regex (S : list Z) :
  matches_regex S <->
  Forall is_symbol S /\
  exists w,
    Fsm4.worker_main (map Fsm4.build_msg S) =
      Some (w, recvs_of S ++ [Send ROOT (Fsm4.build_msg ACK)]).
Proof.
  destruct (worker_loop_consumed S Fsm4.worker_init)
    as (w & Hrun & Hst & Hcases);
    [apply build_msg_length | reflexivity | discriminate |].
  fold (Fsm4.worker_main (map Fsm4.build_msg S)) in Hrun.
  cbn [Fsm4.my_state Fsm4.worker_init] in Hrun, Hst.
  split.
  - intros Hm. destruct (regex_drives_to_Q3 S Hm) as (Hsym & Hf & Hc).
    split; [exact Hsym|]. exists w. rewrite Hrun, Hc, firstn_all.
    destruct Hcases as [(_ & H3) | (H1 & _)]; [congruence|].
    rewrite H1. reflexivity.
  - intros (Hsym & w' & Hrun').
    rewrite Hrun in Hrun'. injection Hrun' as _ Htr.
    assert (Hsends := f_equal sends_of Htr).
    assert (Hrecvs := f_equal (fun t => length (recv_sources t)) Htr).
    cbn beta in Hrecvs.
    rewrite !sends_of_app in Hsends. rewrite !recv_sources_app, !length_app in Hrecvs.
    destruct (recvs_of_events (firstn (consumed Q0 S) S)) as [E1 E2].
    destruct (recvs_of_events S) as [E3 E4].
    rewrite E1, E3 in Hsends. rewrite E2, E4 in Hrecvs.
    destruct Hcases as [(H0 & _) | (H1 & H3)].
    + rewrite H0 in Hsends. discriminate Hsends.
    + rewrite H1 in Hrecvs. cbn [Z.eqb recv_sources length] in Hrecvs.
      rewrite length_firstn in Hrecvs. pose proof (consumed_le S Q0).
      apply stop_from_Q0; [exact Hsym | congruence | lia].
Qed.

(** ** The worker of mpi-fsm-2.c *)

Section Worker2.

Lemma worker_switch2_spec (w : Fsm2.worker) :
  Fsm2.worker_switch w =
    Some (Fsm2.mkWorker
            (guarded_next (Fsm2.my_state w) (Fsm2.w_msg w))
            (if (Fsm2.my_state w =? Q2) && (Fsm2.w_msg w =? C)
             then Fsm2.w_done w + 1 else Fsm2.w_done w)
            (Fsm2.w_msg w)).
Proof.
  destruct w as [q d s]. unfold Fsm2.worker_switch.
  cbn [Fsm2.w_msg Fsm2.my_state Fsm2.w_done]. unfold guarded_next.
  destruct (s =? A) eqn:EA.
  { apply Z.eqb_eq in EA. subst s. rewrite (Z.eqb_sym Q0 q).
    destruct (q =? Q0) eqn:E0.
    - apply Z.eqb_eq in E0. subst q. reflexivity.
    - rewrite !andb_false_r. reflexivity. }
  destruct (s =? B) eqn:EB.
  { apply Z.eqb_eq in EB. subst s. rewrite (Z.eqb_sym Q1 q).
    destruct (q =? Q1) eqn:E1.
    - apply Z.eqb_eq in E1. subst q. reflexivity.
    - rewrite !andb_false_r. reflexivity. }
  destruct (s =? C) eqn:EC.
  { apply Z.eqb_eq in EC. subst s. rewrite (Z.eqb_sym Q2 q).
    destruct (q =? Q2) eqn:E2.
    - apply Z.eqb_eq in E2. subst q. reflexivity.
    - rewrite !andb_false_r. reflexivity. }
  rewrite !andb_false_r. reflexivity.
Qed.

Lemma worker_loop2_done (w : Fsm2.worker) (inbox : list Z) :
  Fsm2.w_done w <> 0 -> Fsm2.worker_loop w inbox = Some (w, []).
Proof.
  intros H. destruct inbox as [|m rest]; [reflexivity|].
  cbn [Fsm2.worker_loop]. apply Z.eqb_neq in H. rewrite H. reflexivity.
Qed.

Lemma worker_loop2_spec (S : list Z) : forall w : Fsm2.worker,
  Fsm2.w_done w = 0 -> Fsm2.my_state w <> Q3 ->
  exists w',
    Fsm2.worker_loop w S =
      Some (w', recvs_of2 (firstn (consumed (Fsm2.my_state w) S) S)) /\
    Fsm2.my_state w' = fold_left guarded_next S (Fsm2.my_state w) /\
    (Fsm2.w_done w' = 0 /\ Fsm2.my_state w' <> Q3 \/
     Fsm2.w_done w' = 1 /\ Fsm2.my_state w' = Q3).
Proof.
  induction S as [|s S IH]; intros w Hd Hq.
  - exists w. cbn. auto.
  - cbn [Fsm2.worker_loop consumed]. rewrite Hd. cbn [Z.eqb].
    unfold Fsm2.worker_iter. rewrite worker_switch2_spec.
    cbn [Fsm2.my_state Fsm2.w_done Fsm2.w_msg].
    destruct ((Fsm2.my_state w =? Q2) && (s =? C)) eqn:Eacc.
    + rewrite worker_loop2_done by (cbn; lia). eexists. split; [reflexivity|].
      cbn [Fsm2.my_state Fsm2.w_done fold_left].
      rewrite (guarded_next_accept _ _ Eacc), fold_guarded_next_Q3, Hd. auto.
    + destruct (IH (Fsm2.mkWorker (guarded_next (Fsm2.my_state w) s)
                                  (Fsm2.w_done w) s))
        as (w' & Hrun & Hst & Hcases).
      * exact Hd.
      * cbn. apply guarded_next_not_accept; assumption.
      * cbn [Fsm2.my_state] in *. rewrite Hrun. exists w'.
        split; [reflexivity|]. split; [exact Hst | exact Hcases].
Qed.

End Worker2.

(** X6.  The worker of mpi-fsm-2.c runs the same automaton as the worker of
    mpi-fsm-4.c: on the same symbols both end in the same state with the same
    [done], having received the same number of messages, and that state is
    Q3 exactly when the symbols contain A, later B, later C.  The worker of
    mpi-fsm-2.c only ever receives: it tells the root nothing when it
    stops. *)
Theorem worker2_same_automaton_no_ack (S : list Z) :
  exists w2 w4,
    Fsm2.worker_loop Fsm2.worker_init S =
      Some (w2, recvs_of2 (firstn (consumed Q0 S) S)) /\
    Fsm4.worker_main (map Fsm4.build_msg S) =
      Some (w4, recvs_of (firstn (consumed Q0 S) S) ++
                (if Fsm4.w_done w4 =? 0
                 then [] else [Send ROOT (Fsm4.build_msg ACK)])) /\
    Fsm2.my_state w2 = Fsm4.my_state w4 /\
    Fsm2.w_done w2 = Fsm4.w_done w4 /\
    (Fsm2.w_done w2 <> 0 <-> contains_ABC S) /\
    sends_of (recvs_of2 (firstn (consumed Q0 S) S)) = [].
Proof.
  destruct (worker_loop2_spec S Fsm2.worker_init) as (w2 & Hrun2 & Hst2 & Hc2);
    [reflexivity | discriminate |].
  destruct (worker_loop_consumed S Fsm4.worker_init) as (w4 & Hrun4 & Hst4 & Hc4);
    [apply build_msg_length | reflexivity | discriminate |].
  exists w2, w4. split; [exact Hrun2|]. split; [exact Hrun4|].
  cbn [Fsm2.my_state Fsm2.worker_init] in Hst2.
  cbn [Fsm4.my_state Fsm4.worker_init] in Hst4.
  assert (Est : Fsm2.my_state w2 = Fsm4.my_state w4) by congruence.
  split; [exact Est|].
  assert (Hacc : fold_left guarded_next S Q0 = Q3 <-> contains_ABC S).
  { rewrite contains_ABC_iff. apply (fold_guarded_next_subseq S Q0).
    unfold is_state; tauto. }
  split; [|split].
  - destruct Hc2 as [(H0 & H3) | (H1 & H3)], Hc4 as [(H0' & H3') | (H1' & H3')];
      congruence.
  - rewrite <- Hacc, <- Hst2.
    destruct Hc2 as [(H0 & H3) | (H1 & H3)]; split; intros H; try congruence; lia.
  - unfold recvs_of2. induction (firstn (consumed Q0 S) S) as [|s l IH];
      [reflexivity | exact IH].
Qed.

(** ** What the root of mpi-fsm-4.c puts on the wire *)

Section RootWire.
Import Fsm4.

Lemma get_random_msg_symbol (r : Z) : 0 <= r -> is_symbol (get_random_msg r).
Proof.
  intros Hr. unfold get_random_msg, NUM_SYMBOLS.
  rewrite Z.rem_mod_nonneg by lia.
  pose proof (Z.mod_pos_bound r 3 ltac:(lia)).
  unfold is_symbol, A, B, C. lia.
Qed.

Lemma root_loop_sends (num_nodes : Z) (rounds : list round) : forall (r : root) d buf,
  In (d, buf) (sends_of (snd (root_loop num_nodes r rounds))) ->
  1 <= d < num_nodes /\
  exists i, In i rounds /\ buf = build_msg (get_random_msg (rnd i)).
Proof.
  induction rounds as [|i rest IH]; intros r d buf Hin; [destruct Hin|].
  cbn [root_loop] in Hin. destruct (done r =? 0); [|destruct Hin].
  destruct (root_iter_events num_nodes r i) as (Hs & _).
  destruct (root_iter num_nodes r i) as [r1 e1].
  specialize (IH r1 d buf).
  destruct (root_loop num_nodes r1 rest) as [r2 e2]. cbn [fst snd] in *.
  rewrite sends_of_app in Hin. apply in_app_or in Hin as [Hin | Hin].
  - rewrite Hs in Hin. apply in_map_iff in Hin as (j & E & Hj).
    injection E as <- <-. split; [apply in_worker_ranks, Hj|].
    exists i. split; [left; reflexivity | reflexivity].
  - destruct (IH Hin) as (Hd & i' & Hi' & Hb). split; [exact Hd|].
    exists i'. split; [right; exact Hi' | exact Hb].
Qed.

Lemma inbox_of_app (j : Z) (t1 t2 : list event) :
  inbox_of j (t1 ++ t2) = inbox_of j t1 ++ inbox_of j t2.
Proof.
  induction t1 as [|[d b | src b] t1 IH]; cbn [app inbox_of]; [reflexivity | |exact IH].
  destruct (d =? j); rewrite IH; reflexivity.
Qed.

Lemma inbox_of_map_Send (j : Z) (buf : list Z) (l : list Z) :
  NoDup l ->
  inbox_of j (map (fun d => Send d buf) l) =
  if in_dec Z.eq_dec j l then [buf] else [].
Proof.
  induction 1 as [|d l Hd Hl IH]; [reflexivity|].
  cbn [map inbox_of]. rewrite IH.
  destruct (Z.eqb_spec d j) as [-> | Hne].
  - destruct (in_dec Z.eq_dec j l); [contradiction|].
    destruct (in_dec Z.eq_dec j (j :: l)) as [_ | n']; [reflexivity|].
    exfalso. apply n'. left. reflexivity.
  - destruct (in_dec Z.eq_dec j l) as [i | n];
      destruct (in_dec Z.eq_dec j (d :: l)) as [i' | n']; try reflexivity.
    + exfalso. apply n'. right. exact i.
    + destruct i' as [E | i']; [congruence | contradiction].
Qed.

Lemma inbox_of_broadcast (num_nodes j : Z) (buf : list Z) :
  1 <= j < num_nodes -> inbox_of j (broadcast num_nodes buf) = [buf].
Proof.
  intros H. unfold broadcast.
  rewrite inbox_of_map_Send by apply worker_ranks_NoDup.
  destruct (in_dec Z.eq_dec j (worker_ranks num_nodes)) as [_ | n]; [reflexivity|].
  exfalso. apply n, in_worker_ranks, H.
Qed.



End RootWire.

(** X7.  Every message the root of mpi-fsm-4.c sends goes to a rank from 1
    to [num_nodes-1] (never to itself, never outside the communicator) and,
    when [rand()] returns non-negative values, consists of MSG_SIZE slots
    that all hold the same symbol, one of A, B, C: the root never puts ACK
    on the wire. *)
Theorem root_sends_only_symbol_buffers
    (num_nodes : Z) (rounds : list Fsm4.round) (d : Z) (buf : list Z) :
  Forall (fun i => 0 <= Fsm4.rnd i) rounds ->
  In (d, buf) (sends_of (snd (Fsm4.root_main num_nodes rounds))) ->
  1 <= d < num_nodes /\ d <> ROOT /\
  length buf = Z.to_nat MSG_SIZE /\
  ~ In ACK buf /\
  exists s, is_symbol s /\ forall x, In x buf -> x = s.
Proof.
  intros Hr Hin. unfold Fsm4.root_main in Hin.
  destruct (root_loop_sends num_nodes rounds _ d buf Hin) as (Hd & i & Hi & ->).
  rewrite Forall_forall in Hr. specialize (Hr i Hi).
  pose proof (get_random_msg_symbol _ Hr) as Hs.
  split; [exact Hd|]. split; [unfold ROOT; lia|].
  split; [apply build_msg_length|].
  assert (Hall : forall x, In x (Fsm4.build_msg (get_random_msg (Fsm4.rnd i))) ->
                           x = get_random_msg (Fsm4.rnd i)).
  { intros x Hx. unfold Fsm4.build_msg in Hx. apply repeat_spec in Hx. exact Hx. }
  split.
  - intros Hack. apply Hall in Hack. rewrite <- Hack in Hs.
    unfold is_symbol, ACK, A, B, C in Hs. lia.
  - exists (get_random_msg (Fsm4.rnd i)). split; [exact Hs | exact Hall].
Qed.

Lemma root_sends_only_symbol_buffers_witness :
  1 <= 2 < 3 /\ 2 <> ROOT /\
  length (Fsm4.build_msg B) = Z.to_nat MSG_SIZE /\
  ~ In ACK (Fsm4.build_msg B) /\
  exists s, is_symbol s /\ forall x, In x (Fsm4.build_msg B) -> x = s.
Proof.
  apply (root_sends_only_symbol_buffers 3
           [Fsm4.mkRound 7 (Some (2, Fsm4.build_msg ACK)); Fsm4.mkRound 5 None]
           2 (Fsm4.build_msg B)).
  - repeat constructor; cbn; lia.
  - vm_compute. right. left. reflexivity.
Defined.


(** ** When the root of mpi-fsm-4.c stops *)

Section RootStops.
Import Fsm4.

Lemma root_loop_pending (num_nodes : Z) (rounds : list round) : forall r : root,
  2 <= num_nodes <= INT_MAX ->
  done r = 0 -> 0 <= ACK_COUNT r < num_nodes - 1 ->
  ACK_COUNT (fst (root_loop num_nodes r rounds)) =
    Z.min (ACK_COUNT r + Z.of_nat (pending_count rounds)) (num_nodes - 1) /\
  (done (fst (root_loop num_nodes r rounds)) = 1 /\
     num_nodes - 1 <= ACK_COUNT r + Z.of_nat (pending_count rounds) \/
   done (fst (root_loop num_nodes r rounds)) = 0 /\
     ACK_COUNT r + Z.of_nat (pending_count rounds) < num_nodes - 1).
Proof.
  induction rounds as [|i rest IH]; intros r Hn Hd Hc.
  - cbn. split; [lia | right; lia].
  - cbn [root_loop pending_count]. rewrite Hd. cbn [Z.eqb].
    unfold root_iter. destruct (probe i) as [[source incoming]|].
    + unfold INT_MAX in Hn.
      rewrite (int_wrap_id (ACK_COUNT r + 1)) by (unfold INT_MIN, INT_MAX; lia).
      rewrite (int_wrap_id (num_nodes - 1)) by (unfold INT_MIN, INT_MAX; lia).
      destruct (Z.eqb_spec (num_nodes - 1) (ACK_COUNT r + 1)) as [E | E].
      * rewrite Hd. cbn [Z.add].
        rewrite (surjective_pairing (root_loop _ _ rest)).
        cbn [fst]. rewrite root_loop_done by (cbn; discriminate).
        cbn [fst ACK_COUNT done]. split; [lia | left; lia].
      * rewrite (surjective_pairing (root_loop _ _ rest)). cbn [fst].
        match goal with |- context [root_loop num_nodes ?r1 rest] =>
          destruct (IH r1) as (Hc1 & Hd1);
            [unfold INT_MAX; lia | exact Hd | cbn; lia |]
        end.
        cbn [ACK_COUNT] in Hc1, Hd1. split; [lia|].
        destruct Hd1 as [(H1 & Hle) | (H0 & Hlt)]; [left | right]; split; auto; lia.
    + rewrite (surjective_pairing (root_loop _ _ rest)). cbn [fst].
      match goal with |- context [root_loop num_nodes ?r1 rest] =>
        destruct (IH r1) as (Hc1 & Hd1); [exact Hn | exact Hd | exact Hc |]
      end.
      cbn [ACK_COUNT] in Hc1, Hd1. split; [exact Hc1 | exact Hd1].
Qed.

Lemma root_loop_no_probe (num_nodes : Z) (rs : list Z) : forall r : root,
  done r = 0 ->
  done (fst (root_loop num_nodes r (map (fun x => mkRound x None) rs))) = 0 /\
  ACK_COUNT (fst (root_loop num_nodes r (map (fun x => mkRound x None) rs)))
    = ACK_COUNT r /\
  recv_sources (snd (root_loop num_nodes r (map (fun x => mkRound x None) rs)))
    = [] /\
  (num_nodes = 1 ->
   snd (root_loop num_nodes r (map (fun x => mkRound x None) rs)) = []).
Proof.
  induction rs as [|x rs IH]; intros r Hd; [cbn; auto|].
  cbn [map root_loop]. rewrite Hd. cbn [Z.eqb]. unfold root_iter. cbn [probe rnd].
  match goal with |- context [root_loop num_nodes ?r1 _] =>
    destruct (IH r1 Hd) as (H1 & H2 & H3 & H4);
    destruct (root_loop num_nodes r1 (map (fun x => mkRound x None) rs))
      as [r2 e2]
  end.
  cbn [fst snd ACK_COUNT] in *. split; [exact H1|]. split; [exact H2|]. split.
  - rewrite recv_sources_app, recv_sources_broadcast. exact H3.
  - intros ->. rewrite (H4 eq_refl). reflexivity.
Qed.

End RootStops.

(** X9.  With at least one worker, and pending messages that fit the
    receive of MSG_SIZE ints, the root of mpi-fsm-4.c leaves its loop
    exactly when [MPI_Iprobe] has found a message in [num_nodes-1] of the
    rounds, whoever sent them and whichever ints they hold; until then it
    counts every one of them, afterwards none: [ACK_COUNT] is the smaller of
    [num_nodes-1] and the number of rounds with a message pending. *)
Theorem root_stops_after_enough_messages
    (num_nodes : Z) (rounds : list Fsm4.round) :
  2 <= num_nodes <= INT_MAX ->
  Forall probe_fits rounds ->
  (Fsm4.done (fst (Fsm4.root_main num_nodes rounds)) <> 0 <->
   num_nodes - 1 <= Z.of_nat (pending_count rounds)) /\
  Fsm4.ACK_COUNT (fst (Fsm4.root_main num_nodes rounds)) =
    Z.min (Z.of_nat (pending_count rounds)) (num_nodes - 1).
Proof.
  intros Hn _. unfold Fsm4.root_main.
  destruct (root_loop_pending num_nodes rounds Fsm4.root_init Hn)
    as (Hc & Hd); [reflexivity | cbn; lia |].
  cbn [Fsm4.ACK_COUNT Fsm4.root_init] in Hc, Hd. rewrite Z.add_0_l in Hc, Hd.
  split; [|exact Hc].
  destruct Hd as [(H1 & Hle) | (H0 & Hlt)]; split; intros H; lia.
Qed.

Lemma root_stops_after_enough_messages_witness :
  (Fsm4.done (fst (Fsm4.root_main 3
      [Fsm4.mkRound 7 (Some (2, [B]));
       Fsm4.mkRound 5 None;
       Fsm4.mkRound 4 None;
       Fsm4.mkRound 1 (Some (1, Fsm4.build_msg ACK))])) <> 0 <->
   3 - 1 <= Z.of_nat (pending_count
      [Fsm4.mkRound 7 (Some (2, [B]));
       Fsm4.mkRound 5 None;
       Fsm4.mkRound 4 None;
       Fsm4.mkRound 1 (Some (1, Fsm4.build_msg ACK))])) /\
  Fsm4.ACK_COUNT (fst (Fsm4.root_main 3
      [Fsm4.mkRound 7 (Some (2, [B]));
       Fsm4.mkRound 5 None;
       Fsm4.mkRound 4 None;
       Fsm4.mkRound 1 (Some (1, Fsm4.build_msg ACK))])) =
    Z.min (Z.of_nat (pending_count
      [Fsm4.mkRound 7 (Some (2, [B]));
       Fsm4.mkRound 5 None;
       Fsm4.mkRound 4 None;
       Fsm4.mkRound 1 (Some (1, Fsm4.build_msg ACK))])) (3 - 1).
Proof.
  apply (root_stops_after_enough_messages 3
           [Fsm4.mkRound 7 (Some (2, [B]));
            Fsm4.mkRound 5 None;
            Fsm4.mkRound 4 None;
            Fsm4.mkRound 1 (Some (1, Fsm4.build_msg ACK))]).
  - unfold INT_MAX. lia.
  - repeat constructor; unfold probe_fits; cbn [Fsm4.probe];
      try exact I; vm_compute; discriminate.
Defined.

(** X10.  As long as no message is pending the root of mpi-fsm-4.c keeps
    looping with [done] and [ACK_COUNT] unchanged at 0 and receives nothing;
    run as the only process ([num_nodes] = 1) it has nobody to send to
    either, so it issues no MPI event at all and never stops.  The root of
    mpi-fsm-2.c run alone takes its 50 turns, sends nothing, and stops. *)
Theorem root_without_messages (num_nodes : Z) (rs : list Z) (rand : nat -> Z) :
  Fsm4.done (fst (Fsm4.root_main num_nodes
                    (map (fun x => Fsm4.mkRound x None) rs))) = 0 /\
  Fsm4.ACK_COUNT (fst (Fsm4.root_main num_nodes
                         (map (fun x => Fsm4.mkRound x None) rs))) = 0 /\
  recv_sources (snd (Fsm4.root_main num_nodes
                       (map (fun x => Fsm4.mkRound x None) rs))) = [] /\
  snd (Fsm4.root_main 1 (map (fun x => Fsm4.mkRound x None) rs)) = [] /\
  Fsm2.root_main 50 1 rand = Some [].
Proof.
  unfold Fsm4.root_main.
  destruct (root_loop_no_probe num_nodes rs Fsm4.root_init eq_refl)
    as (H1 & H2 & H3 & _).
  destruct (root_loop_no_probe 1 rs Fsm4.root_init eq_refl) as (_ & _ & _ & H4).
  split; [exact H1|]. split; [exact H2|]. split; [exact H3|].
  split; [exact (H4 eq_refl)|].
  unfold Fsm2.root_main.
  pose proof (root_for_spec 1 rand 50 50 0 eq_refl (le_n 50)) as E.
  change (Z.of_nat 0) with 0 in E. rewrite E. reflexivity.
Qed.

(** ** The two processes of mpi-fsm-2.c together *)

Section System2.

Variable num_nodes : Z.
Variable rand : nat -> Z.

Lemma inbox_of_fixed_rounds (j : Z) (k : nat) : forall i : nat,
  1 <= j < num_nodes ->
  inbox_of j (flat_map (Fsm2.round_events num_nodes rand) (seq i k)) =
  map (fun x => [get_random_msg (rand x)]) (seq i k).
Proof.
  induction k as [|k IH]; intros i Hj; [reflexivity|].
  cbn [seq flat_map map]. rewrite inbox_of_app, (IH (Datatypes.S i) Hj).
  unfold Fsm2.round_events at 1. rewrite inbox_of_broadcast by exact Hj.
  reflexivity.
Qed.

Lemma concat_singletons (f : nat -> Z) (l : list nat) :
  concat (map (fun x => [f x]) l) = map f l.
Proof.
  induction l as [|x l IH]; [reflexivity|]. cbn [map concat app].
  rewrite IH. reflexivity.
Qed.

End System2.

(** X11.  In mpi-fsm-2.c a worker is sent exactly the 50 symbols the root
    draws, one int per message, and then nothing more.  Fed with them it
    leaves its loop if and only if those 50 symbols contain A, later B, later
    C; otherwise it has received all 50, [done] is still 0, and it waits in
    [MPI_Recv] for a message the root, which has stopped, will not send. *)
Theorem fixed_variant_worker_depends_on_the_draw
    (num_nodes : Z) (rand : nat -> Z) (j : Z) :
  1 <= j < num_nodes ->
  exists tr w,
    Fsm2.root_main 50 num_nodes rand = Some tr /\
    inbox_of j tr = map (fun i => [get_random_msg (rand i)]) (seq 0 50) /\
    Fsm2.worker_loop Fsm2.worker_init (concat (inbox_of j tr)) =
      Some (w, recvs_of2
                 (firstn (consumed Q0 (concat (inbox_of j tr)))
                         (concat (inbox_of j tr)))) /\
    (Fsm2.w_done w <> 0 <->
     contains_ABC (map (fun i => get_random_msg (rand i)) (seq 0 50))) /\
    (Fsm2.w_done w = 0 ->
     consumed Q0 (concat (inbox_of j tr)) = 50%nat /\ Fsm2.my_state w <> Q3).
Proof.
  intros Hj.
  pose proof (root_for_spec num_nodes rand 50 50 0 eq_refl (le_n 50)) as Hroot.
  change (Z.of_nat 0) with 0 in Hroot. fold (Fsm2.root_main 50 num_nodes rand) in Hroot.
  eexists. rewrite Hroot.
  rewrite (inbox_of_fixed_rounds num_nodes rand j 50 0 Hj), concat_singletons.
  set (S := map (fun x => get_random_msg (rand x)) (seq 0 50)).
  destruct (worker_loop2_spec S Fsm2.worker_init) as (w & Hrun & Hst & Hc);
    [reflexivity | discriminate |].
  cbn [Fsm2.my_state Fsm2.worker_init] in Hrun, Hst.
  exists w. split; [reflexivity|]. split; [reflexivity|]. split; [exact Hrun|].
  assert (Hacc : fold_left guarded_next S Q0 = Q3 <-> contains_ABC S).
  { rewrite contains_ABC_iff. apply (fold_guarded_next_subseq S Q0).
    unfold is_state; tauto. }
  split.
  - rewrite <- Hacc, <- Hst.
    destruct Hc as [(H0 & H3) | (H1 & H3)]; split; intros H; try congruence; lia.
  - intros H0. destruct Hc as [(_ & H3) | (H1 & _)]; [|lia]. split; [|exact H3].
    assert (Hlen : length S = 50%nat)
      by (unfold S; rewrite length_map, length_seq; reflexivity).
    rewrite <- Hlen. clear Hlen Hrun Hacc. rewrite Hst in H3. clear Hst H0 w.
    revert H3. generalize Q0 at 1 2 as q.
    induction S as [|s S' IH]; intros q H3; [reflexivity|].
    cbn [consumed length fold_left] in *.
    destruct ((q =? Q2) && (s =? C)) eqn:Eacc.
    + exfalso. apply H3. rewrite (guarded_next_accept _ _ Eacc).
      apply fold_guarded_next_Q3.
    + f_equal. apply IH, H3.
Qed.

Lemma fixed_variant_worker_depends_on_the_draw_witness :
  exists tr w,
    Fsm2.root_main 50 2 (fun _ => 0) = Some tr /\
    inbox_of 1 tr = map (fun i => [get_random_msg ((fun _ => 0) i)]) (seq 0 50) /\
    Fsm2.worker_loop Fsm2.worker_init (concat (inbox_of 1 tr)) =
      Some (w, recvs_of2
                 (firstn (consumed Q0 (concat (inbox_of 1 tr)))
                         (concat (inbox_of 1 tr)))) /\
    (Fsm2.w_done w <> 0 <->
     contains_ABC (map (fun i => get_random_msg ((fun _ => 0) i)) (seq 0 50))) /\
    (Fsm2.w_done w = 0 ->
     consumed Q0 (concat (inbox_of 1 tr)) = 50%nat /\ Fsm2.my_state w <> Q3).
Proof.
  apply (fixed_variant_worker_depends_on_the_draw 2 (fun _ => 0) 1). lia.
Defined.

(** ** Messages that carry no symbol *)

Section NoSymbol.

Lemma guarded_next_no_symbol (q s : Z) :
  is_symbolb s = false -> guarded_next q s = q.
Proof.
  unfold is_symbolb. intros H.
  apply orb_false_elim in H as [H HC]. apply orb_false_elim in H as [HA HB].
  unfold guarded_next. rewrite HA, HB, HC, !andb_false_r. reflexivity.
Qed.

Lemma fold_guarded_next_filter (S : list Z) : forall q : Z,
  fold_left guarded_next (filter is_symbolb S) q = fold_left guarded_next S q.
Proof.
  induction S as [|s S IH]; intros q; [reflexivity|].
  cbn [filter fold_left]. destruct (is_symbolb s) eqn:E.
  - cbn [fold_left]. apply IH.
  - rewrite (guarded_next_no_symbol q s E). apply IH.
Qed.

Lemma map_hd_filter (inbox : list (list Z)) :
  map (hd 0) (filter (fun m => is_symbolb (hd 0 m)) inbox) =
  filter is_symbolb (map (hd 0) inbox).
Proof.
  induction inbox as [|m inbox IH]; [reflexivity|].
  cbn [filter map]. destruct (is_symbolb (hd 0 m)); cbn [map]; rewrite IH; reflexivity.
Qed.

End NoSymbol.

(** X12.  The worker's switch has no [default]: a message whose first slot
    is none of A, B, C (ACK, the initial -1, anything else) is received and
    dropped.  So a worker of mpi-fsm-4.c ends in the same state, with the
    same [done], whether or not such messages are interleaved with the
    others. *)
Theorem worker_skips_messages_without_symbol (inbox : list (list Z)) :
  Forall (fun m => m <> [] /\ (length m <= Z.to_nat MSG_SIZE)%nat) inbox ->
  exists w tr w' tr',
    Fsm4.worker_main inbox = Some (w, tr) /\
    Fsm4.worker_main (filter (fun m => is_symbolb (hd 0 m)) inbox)
      = Some (w', tr') /\
    Fsm4.my_state w = Fsm4.my_state w' /\
    Fsm4.w_done w = Fsm4.w_done w' /\
    sends_of tr = sends_of tr'.
Proof.
  intros Hok.
  assert (Hne : Forall (fun m : list Z => m <> []) inbox).
  { revert Hok. apply Forall_impl. intros m [H _]. exact H. }
  assert (Hne' : Forall (fun m : list Z => m <> [])
                        (filter (fun m => is_symbolb (hd 0 m)) inbox)).
  { rewrite Forall_forall in *. intros m Hm. apply filter_In in Hm as [Hm _].
    apply Hne, Hm. }
  destruct (worker_loop_any inbox Fsm4.worker_init)
    as (w & tr & Hrun & _ & _ & Hc & Hfold);
    [apply build_msg_length | unfold is_state; tauto | reflexivity | discriminate |].
  destruct (worker_loop_any (filter (fun m => is_symbolb (hd 0 m)) inbox)
                            Fsm4.worker_init)
    as (w' & tr' & Hrun' & _ & _ & Hc' & Hfold');
    [apply build_msg_length | unfold is_state; tauto | reflexivity | discriminate |].
  exists w, tr, w', tr'. split; [exact Hrun|]. split; [exact Hrun'|].
  specialize (Hfold Hne). specialize (Hfold' Hne').
  rewrite map_hd_filter, fold_guarded_next_filter, <- Hfold in Hfold'.
  split; [congruence|].
  destruct Hc as [(H0 & H3 & Hs) | (H1 & H3 & Hs)],
           Hc' as [(H0' & H3' & Hs') | (H1' & H3' & Hs')];
    try congruence; split; congruence.
Qed.

Lemma worker_skips_messages_without_symbol_witness :
  exists w tr w' tr',
    Fsm4.worker_main [[ACK]; [A; 5]; [-1]; [B]; [9; C]; [C]] = Some (w, tr) /\
    Fsm4.worker_main
      (filter (fun m => is_symbolb (hd 0 m))
              [[ACK]; [A; 5]; [-1]; [B]; [9; C]; [C]])
      = Some (w', tr') /\
    Fsm4.my_state w = Fsm4.my_state w' /\
    Fsm4.w_done w = Fsm4.w_done w' /\
    sends_of tr = sends_of tr'.
Proof.
  apply (worker_skips_messages_without_symbol
           [[ACK]; [A; 5]; [-1]; [B]; [9; C]; [C]]).
  repeat constructor; try discriminate; vm_compute; discriminate.
Defined.
